(** * The Conan recipe of fossil_media (conanfile.py)

    A shallow embedding of the recipe class [FossilMediaConan]: its class
    attributes, its lifecycle methods and the calls they make into Conan,
    Meson and the shell. *)

From Stdlib Require Import String Ascii List Bool Arith Lia.
From stdpp Require Import base option list strings gmap fin_maps.

Local Open Scope string_scope.

(** ** Python's [os.path] on POSIX *)

Module Posix.

Definition sep : ascii := "/"%char.

Definition starts_with_sep (p : string) : bool :=
  match p with
  | String c _ => if Ascii.eqb c sep then true else false
  | EmptyString => false
  end.

Fixpoint ends_with_sep (p : string) : bool :=
  match p with
  | EmptyString => false
  | String c EmptyString => if Ascii.eqb c sep then true else false
  | String _ rest => ends_with_sep rest
  end.

(** One round of the loop of [posixpath.join]:
    [if b.startswith(sep): path = b]
    [elif not path or path.endswith(sep): path += b]
    [else: path += sep + b]. *)
Definition join1 (path b : string) : string :=
  if starts_with_sep b then b
  else match path with
       | EmptyString => b
       | _ => if ends_with_sep path then path ++ b
              else path ++ String sep b
       end.

(** [os.path.join(a, *p)]. *)
Definition join (a : string) (p : list string) : string :=
  fold_left join1 p a.

(** [s.split(c)] for a one-character separator: never the empty list. *)
Fixpoint split (c : ascii) (s : string) : list string :=
  match s with
  | EmptyString => [EmptyString]
  | String a rest =>
      if Ascii.eqb a c then EmptyString :: split c rest
      else match split c rest with
           | w :: ws => String a w :: ws
           | [] => [String a EmptyString]
           end
  end.

(** [initial_slashes] of [posixpath.normpath]: 0, 1, or 2 for exactly two
    leading slashes. *)
Definition initial_slashes (path : string) : nat :=
  match path with
  | String c1 rest1 =>
      if Ascii.eqb c1 sep then
        match rest1 with
        | String c2 rest2 =>
            if Ascii.eqb c2 sep then
              match rest2 with
              | String c3 _ => if Ascii.eqb c3 sep then 1 else 2
              | EmptyString => 2
              end
            else 1
        | EmptyString => 1
        end
      else 0
  | EmptyString => 0
  end.

(** The body of the loop over the components, on [new_comps]. *)
Definition norm_step (slashes : nat) (new_comps : list string) (comp : string)
  : list string :=
  if String.eqb comp "" || String.eqb comp "." then new_comps
  else if negb (String.eqb comp "..")
          || (Nat.eqb slashes 0 && match new_comps with [] => true | _ => false end)
          || match last new_comps with Some l => String.eqb l ".." | None => false end
       then new_comps ++ [comp]
       else removelast new_comps.

(** A path component: not empty and without a slash. *)
Fixpoint no_sep (s : string) : bool :=
  match s with
  | EmptyString => true
  | String c rest => negb (Ascii.eqb c sep) && no_sep rest
  end.

Definition component (w : string) : Prop := no_sep w = true /\ w <> "".

Fixpoint repeat_sep (n : nat) : string :=
  match n with O => EmptyString | S k => String sep (repeat_sep k) end.

(** [path or '.']. *)
Definition or_dot (path : string) : string :=
  match path with
  | EmptyString => "."
  | _ => path
  end.

(** [os.path.normpath(path)]. *)
Definition normpath (path : string) : string :=
  match path with
  | EmptyString => "."
  | _ =>
      let slashes := initial_slashes path in
      let comps := fold_left (norm_step slashes) (split sep path) [] in
      or_dot (repeat_sep slashes
              ++ String.concat (String sep EmptyString) comps)
  end.

End Posix.

(** ** The part of Conan the recipe talks to *)

Module Folders.
(** [self.folders]: the two attributes [layout] assigns. *)
Record t := mk { source : string; build : string }.
Definition set_source (v : string) (f : t) : t := mk v (build f).
Definition set_build (v : string) (f : t) : t := mk (source f) v.
End Folders.

Module CppInfo.
(** [self.cpp_info]: the two attributes [package_info] assigns. *)
Record t := mk { libs : list string; includedirs : list string }.
Definition set_libs (v : list string) (c : t) : t := mk v (includedirs c).
Definition set_includedirs (v : list string) (c : t) : t := mk (libs c) v.
End CppInfo.

(** The calls a recipe method makes out of the recipe: constructors and
    methods of the Meson helpers, [self.run] and [conan.tools.files.copy]. *)
Inductive call : Type :=
| NewMesonToolchain
| ToolchainGenerate
| NewMeson
| MesonConfigure
| MesonBuild
| MesonInstall
| Run (cmd : string)
| Copy (pattern src dst : string).

#[global] Instance call_eq_dec : EqDecision call.
Proof. solve_decision. Defined.

(** The host that executes the calls: it transforms a world of type [W] and
    may raise an exception of type [E]. *)
Class Host (W E : Type) := exec : call -> W -> W * option E.

(** ** The recipe object *)

(** Option values are Python booleans in this recipe. *)
Record ConanFile : Type := mkConanFile {
  name : string;
  version : string;
  license : string;
  author : string;
  url : string;
  description : string;
  topics : list string;
  settings : list string;
  options : gmap string (list bool);
  default_options : gmap string bool;
  exports_sources : list string;
  generators : string;
  (* instance attributes inherited from conan.ConanFile *)
  folders : Folders.t;
  package_folder : string;
  cpp_info : CppInfo.t
}.

Definition set_folders (f : Folders.t) (o : ConanFile) : ConanFile :=
  mkConanFile (name o) (version o) (license o) (author o) (url o)
    (description o) (topics o) (settings o) (options o) (default_options o)
    (exports_sources o) (generators o) f (package_folder o) (cpp_info o).

Definition set_cpp_info (c : CppInfo.t) (o : ConanFile) : ConanFile :=
  mkConanFile (name o) (version o) (license o) (author o) (url o)
    (description o) (topics o) (settings o) (options o) (default_options o)
    (exports_sources o) (generators o) (folders o) (package_folder o) c.

(** The class attributes of [FossilMediaConan], lines 7-20; the three
    inherited attributes are whatever Conan hands to the instance. *)
Definition FossilMediaConan (fld : Folders.t) (pkg : string) (ci : CppInfo.t)
  : ConanFile :=
  {| name := "fossil_media";
     version := "0.1.1";
     license := "MPL-2.0";
     author := "Fossil Logic <michaelbrockus@gmail.com>";
     url := "https://github.com/fossillogic/fossil-media";
     description := "Fossil Media is a lightweight, portable data parsing and processing library written in pure C with zero external dependencies.";
     topics := ["c"; "xml"; "csv"; "json"; "cpp"; "meson"; "conan-recipe";
                "mesonbuild"; "ninja-build"];
     settings := ["os"; "compiler"; "build_type"; "arch"];
     options := {[ "shared" := [true; false] ]};
     default_options := {[ "shared" := false ]};
     exports_sources := ["code/**"; "meson.build"; "meson.options"];
     generators := "PkgConfigDeps";
     folders := fld;
     package_folder := pkg;
     cpp_info := ci |}.

(** The seven fields that describe the package. *)
Record PackageDescriptor : Type := mkDescriptor {
  d_name : string;
  d_version : string;
  d_license : string;
  d_author : string;
  d_url : string;
  d_description : string;
  d_topics : list string
}.

Definition descriptor (o : ConanFile) : PackageDescriptor :=
  mkDescriptor (name o) (version o) (license o) (author o) (url o)
    (description o) (topics o).

(** ** Methods as state transformers that may raise *)

Section Methods.
Context {W E : Type} {host : Host W E}.

Record state : Type := mkState {
  self : ConanFile;
  world : W;
  calls : list call
}.

Inductive result (A : Type) : Type :=
| Ok (a : A)
| Raise (e : E).
Arguments Ok {A} a.
Arguments Raise {A} e.

Definition M (A : Type) : Type := state -> result A * state.

Definition ret {A} (a : A) : M A := fun s => (Ok a, s).

Definition bind {A B} (m : M A) (k : A -> M B) : M B :=
  fun s => match m s with
           | (Ok a, s') => k a s'
           | (Raise e, s') => (Raise e, s')
           end.

Definition get_self : M ConanFile := fun s => (Ok (self s), s).

Definition update_self (f : ConanFile -> ConanFile) : M unit :=
  fun s => (Ok tt, mkState (f (self s)) (world s) (calls s)).

(** An outgoing call: logged, executed by the host, and its exception,
    if any, raised in the method. *)
Definition invoke (c : call) : M unit :=
  fun s => let (w, r) := exec c (world s) in
           (match r with Some e => Raise e | None => Ok tt end,
            mkState (self s) w (calls s ++ [c])).

End Methods.

Arguments Ok {E A} a.
Arguments Raise {E A} e.
Arguments state : clear implicits.
Arguments M {W E} A.

Notation "x <- m ;; k" := (bind m (fun x => k))
  (at level 100, m at next level, right associativity).
Notation "m ;;; k" := (bind m (fun _ => k))
  (at level 100, right associativity).

Section Recipe.
Context {W E : Type} {host : Host W E}.

(** Lines 22-25. *)
Definition layout : M (W:=W) (E:=E) unit :=
  update_self (fun o => set_folders (Folders.set_source "." (folders o)) o) ;;;
  update_self (fun o => set_folders (Folders.set_build "builddir" (folders o)) o).

(** Lines 27-30. *)
Definition generate : M (W:=W) (E:=E) unit :=
  invoke NewMesonToolchain ;;;
  invoke ToolchainGenerate.

(** Lines 32-36. *)
Definition build : M (W:=W) (E:=E) unit :=
  invoke NewMeson ;;;
  invoke MesonConfigure ;;;
  invoke MesonBuild.

(** Lines 38-39, the first [def source]. *)
Definition source_1 : M (W:=W) (E:=E) unit :=
  o <- get_self ;;
  invoke (Run ("git clone --branch v" ++ version o ++ " --depth 1 " ++ url o)).

(** Lines 41-49. *)
Definition package : M (W:=W) (E:=E) unit :=
  invoke NewMeson ;;;
  invoke MesonInstall ;;;
  o <- get_self ;;
  invoke (Copy "*.h" "code/logic/fossil/media"
            (Posix.join (package_folder o) ["include"; "fossil"; "media"])).

(** Lines 51-54. *)
Definition package_info : M (W:=W) (E:=E) unit :=
  update_self (fun o => set_cpp_info (CppInfo.set_libs ["fossil_media"] (cpp_info o)) o) ;;;
  update_self (fun o => set_cpp_info (CppInfo.set_includedirs ["include"] (cpp_info o)) o).

(** Lines 56-57, the second [def source]. *)
Definition source_2 : M (W:=W) (E:=E) unit :=
  o <- get_self ;;
  invoke (Run ("git clone --branch v" ++ version o ++ " " ++ url o)).

(** A [def] statement: the parameter list and the body. *)
Record method : Type := Def { params : list string; body : M (W:=W) (E:=E) unit }.

(** The [def] statements of the class body, in textual order. *)
Definition class_body : list (string * method) :=
  [ ("layout", Def ["self"] layout);
    ("generate", Def ["self"] generate);
    ("build", Def ["self"] build);
    ("source", Def ["self"] source_1);
    ("package", Def ["self"] package);
    ("package_info", Def ["self"] package_info);
    ("source", Def ["self"] source_2) ].

(** Executing the class body binds each name in the class namespace, a
    dict: a later binding of a name replaces the earlier one. *)
Definition bind_name (ns : gmap string method) (d : string * method)
  : gmap string method := <[ d.1 := d.2 ]> ns.

Definition namespace : gmap string method :=
  fold_left bind_name class_body ∅.

(** Attribute lookup of a method on the class. *)
Definition getattr (attr : string) : option (M (W:=W) (E:=E) unit) :=
  body <$> namespace !! attr.

End Recipe.

(** ** Reading a [git clone] command line *)

Module Git.

(** The words of an unquoted command line: the text between blanks. *)
Definition words (cmd : string) : list string :=
  List.filter (fun w => negb (String.eqb w "")) (Posix.split " "%char cmd).

(** The word that follows the first occurrence of the flag [flag]. *)
Fixpoint flag_value (flag : string) (ws : list string) : option string :=
  match ws with
  | [] => None
  | w :: rest => if String.eqb w flag then hd_error rest
                 else flag_value flag rest
  end.

(** [--branch <name>]: the branch or tag the clone checks out. *)
Definition branch_of (cmd : string) : option string :=
  flag_value "--branch" (words cmd).

(** [--depth <n>]: the history depth of a shallow clone; absent for a full
    clone. *)
Definition depth_of (cmd : string) : option string :=
  flag_value "--depth" (words cmd).

Fixpoint no_blank (s : string) : bool :=
  match s with
  | EmptyString => true
  | String c rest => negb (Ascii.eqb c " "%char) && no_blank rest
  end.

End Git.

(** ** Files *)

(** A tree of files: path to content. *)
Abbreviation filesystem := (gmap string string).

Module Files.

Fixpoint strip_prefix (pre s : string) : option string :=
  match pre, s with
  | EmptyString, _ => Some s
  | String a pre', String b s' =>
      if Ascii.eqb a b then strip_prefix pre' s' else None
  | String _ _, EmptyString => None
  end.

(** The path of [rel] below the directory [dir]. *)
Definition child (dir rel : string) : string := dir ++ "/" ++ rel.

(** The name of [p] relative to [dir], when [p] lies below [dir]. *)
Definition relative_to (dir p : string) : option string :=
  strip_prefix (dir ++ "/") p.

(** Shell-style pattern matching: [*] stands for any run of characters,
    [?] for any one character. *)
Fixpoint glob (pat s : string) : bool :=
  match pat with
  | EmptyString => match s with EmptyString => true | _ => false end
  | String p pat' =>
      if Ascii.eqb p "*"%char then
        (fix star (t : string) : bool :=
           glob pat' t
           || match t with
              | EmptyString => false
              | String _ t' => star t'
              end) s
      else match s with
           | EmptyString => false
           | String c s' =>
               (Ascii.eqb p "?"%char || Ascii.eqb p c) && glob pat' s'
           end
  end.

(** Where one file of the tree goes, if it is to be copied. *)
Definition target (pattern src dst : string) (e : string * string)
  : option (string * string) :=
  match relative_to src e.1 with
  | Some rel => if glob pattern rel then Some (child dst rel, e.2) else None
  | None => None
  end.

(** Modelled from the spec: [conan.tools.files.copy], which the recipe
    imports and which is not part of the repository. It "copies header files
    matching a fixed glob pattern from a known source subpath into a fixed
    include subpath": every file below [src] whose relative name matches
    [pattern] is written below [dst] under the same relative name. *)
Definition copy (pattern src dst : string) (fs : filesystem) : filesystem :=
  list_to_map (omap (target pattern src dst) (map_to_list fs)) ∪ fs.

(** No path lies below both directories. *)
Definition apart (src dst : string) : Prop :=
  forall r r' : string, child src r <> child dst r'.

(** The files of the tree that lie below [dir]. *)
Definition files_under (dir : string) (fs : filesystem) : gset string :=
  dom (filter (fun e : string * string => is_Some (relative_to dir e.1)) fs).

End Files.

(** A host over a tree of files: [copy] acts on the tree as modelled above,
    every other call as the tools [tools] decide. *)
Definition files_host {E : Type}
    (tools : call -> filesystem -> filesystem * option E)
  : Host filesystem E :=
  fun c fs =>
    match c with
    | Copy pattern src dst => (Files.copy pattern src dst fs, None)
    | _ => tools c fs
    end.

(** ** The lifecycle *)

(** The hooks Conan calls on the recipe. *)
Definition lifecycle : list string :=
  ["layout"; "generate"; "build"; "source"; "package"; "package_info"].

Section Lifecycle.
Context {W E : Type} {host : Host W E}.

(** The calls a method issues when started in [s]. *)
Definition issued (m : M (W:=W) (E:=E) unit) (s : state W) : list call :=
  drop (length (calls s)) (calls (m s).2).

(** The host running a sequence of calls, up to the first that raises. *)
Fixpoint exec_all (cs : list call) (w : W) : W * option E :=
  match cs with
  | [] => (w, None)
  | c :: rest =>
      match exec c w with
      | (w', Some e) => (w', Some e)
      | (w', None) => exec_all rest w'
      end
  end.

(** A computation that leaves the package descriptor of the recipe object
    as it found it, whether it returns or raises. *)
Definition keeps_descriptor {A : Type} (m : M (W:=W) (E:=E) A) : Prop :=
  forall s : state W, descriptor (self (m s).2) = descriptor (self s).

(** The states of a recipe instance: freshly loaded, or after a hook. *)
Inductive reachable : state W -> Prop :=
| reach_load fld pkg ci w :
    reachable (mkState (FossilMediaConan fld pkg ci) w [])
| reach_hook s attr m :
    reachable s -> In attr lifecycle -> getattr attr = Some m ->
    reachable (m s).2.

End Lifecycle.

(** The calls the methods of the recipe object [o] make: the Meson helpers,
    the clone command of the second [source], and the copy of the headers
    into the package folder of [o]. *)
Definition recipe_call (o : ConanFile) (c : call) : Prop :=
  match c with
  | Run cmd => cmd = "git clone --branch v" ++ version o ++ " " ++ url o
  | Copy pattern src dst =>
      pattern = "*.h" /\ src = "code/logic/fossil/media"
      /\ dst = Posix.join (package_folder o) ["include"; "fossil"; "media"]
  | _ => True
  end.

(** ** Hosts to run the recipe on *)

(** A host that counts the calls and fails those that [bad] selects. *)
Definition counting_host (bad : call -> bool) : Host nat string :=
  fun c n => (S n, if bad c then Some "exit status 1" else None).

Definition is_meson_build (c : call) : bool :=
  match c with MesonBuild => true | _ => false end.

(** Tools that install one library file and do nothing else. *)
Definition install_only (c : call) (fs : filesystem)
  : filesystem * option string :=
  match c with
  | MesonInstall => (<[ "/pkg/lib/libfossil_media.a" := "archive" ]> fs, None)
  | _ => (fs, None)
  end.

Definition sample_tree : filesystem :=
  {[ "code/logic/fossil/media/xml.h" := "xml";
     "code/logic/fossil/media/json.c" := "json" ]}.

Definition sample_state : state filesystem :=
  mkState (FossilMediaConan (Folders.mk "" "") "/pkg" (CppInfo.mk [] []))
          sample_tree [].

Definition fresh_state : state nat :=
  mkState (FossilMediaConan (Folders.mk "" "") "/pkg" (CppInfo.mk [] [])) 0 [].

Definition fails_install (c : call) : bool :=
  match c with MesonInstall => true | _ => false end.

Definition fails_run (c : call) : bool :=
  match c with Run _ => true | _ => false end.

(** * Properties *)

(** ** Strings and paths *)

Lemma append_assoc (a b c : string) : (a ++ b) ++ c = a ++ (b ++ c).
Proof.
  induction a as [|x a IH]; [reflexivity|].
  change (String x ((a ++ b) ++ c) = String x (a ++ b ++ c)). now f_equal.
Qed.

Lemma length_append (a b : string) :
  String.length (a ++ b) = String.length a + String.length b.
Proof.
  induction a as [|x a IH]; [reflexivity|].
  change (S (String.length (a ++ b)) = S (String.length a + String.length b)).
  now f_equal.
Qed.

Lemma strip_prefix_Some (pre s r : string) :
  Files.strip_prefix pre s = Some r <-> s = pre ++ r.
Proof.
  revert s; induction pre as [|a pre IH]; intros s.
  - change (Some s = Some r <-> s = r). split; congruence.
  - change (String a pre ++ r) with (String a (pre ++ r)).
    destruct s as [|b s]; [split; discriminate|].
    change (Files.strip_prefix (String a pre) (String b s))
      with (if Ascii.eqb a b then Files.strip_prefix pre s else None).
    destruct (Ascii.eqb_spec a b) as [->|Hne].
    + rewrite IH. split; congruence.
    + split; [discriminate | congruence].
Qed.

Lemma relative_to_Some (dir p rel : string) :
  Files.relative_to dir p = Some rel <-> p = Files.child dir rel.
Proof.
  unfold Files.relative_to, Files.child.
  rewrite strip_prefix_Some, append_assoc. reflexivity.
Qed.

Lemma relative_to_child (dir rel : string) :
  Files.relative_to dir (Files.child dir rel) = Some rel.
Proof. now apply relative_to_Some. Qed.

Lemma child_inj (dir r r' : string) :
  Files.child dir r = Files.child dir r' -> r = r'.
Proof.
  unfold Files.child. intros H.
  apply (String.app_inj dir) in H. now apply (String.app_inj "/") in H.
Qed.

Lemma child_child (dir a rel : string) :
  Files.child (Files.child dir a) rel = Files.child dir (Files.child a rel).
Proof. unfold Files.child. now rewrite !append_assoc. Qed.

(** ** The model of [copy] *)

Section CopyFacts.
Variables pattern src dst : string.

Local Abbreviation written fs :=
  (list_to_map (omap (Files.target pattern src dst) (map_to_list fs))
   : filesystem).

Lemma target_Some (e : string * string) (q c : string) :
  Files.target pattern src dst e = Some (q, c) <->
  exists rel, e = (Files.child src rel, c) /\ q = Files.child dst rel
              /\ Files.glob pattern rel = true.
Proof.
  unfold Files.target. destruct e as [p c0]; simpl.
  destruct (Files.relative_to src p) as [rel|] eqn:Hrel.
  - apply relative_to_Some in Hrel. subst p.
    destruct (Files.glob pattern rel) eqn:Hg.
    + split.
      * intros [= <- <-]. now exists rel.
      * intros (rel' & [= Hp <-] & -> & _).
        apply child_inj in Hp. now subst.
    + split; [discriminate|].
      intros (rel' & [= Hp _] & _ & Hg').
      apply child_inj in Hp. congruence.
  - split; [discriminate|].
    intros (rel' & [= Hp _] & _). subst p.
    rewrite relative_to_child in Hrel. discriminate.
Qed.

Lemma written_Some (fs : filesystem) (q c : string) :
  written fs !! q = Some c <->
  exists rel, q = Files.child dst rel /\ Files.glob pattern rel = true
              /\ fs !! Files.child src rel = Some c.
Proof.
  unfold written. split.
  - intros H. apply elem_of_list_to_map_2 in H.
    apply list_elem_of_omap in H as (e & He & Ht).
    apply target_Some in Ht as (rel & -> & -> & Hg).
    apply elem_of_map_to_list in He. now exists rel.
  - intros (rel & -> & Hg & Hfs).
    apply elem_of_list_to_map_1'.
    + intros y Hy. apply list_elem_of_omap in Hy as (e & He & Ht).
      apply target_Some in Ht as (rel' & -> & Hq & _).
      apply child_inj in Hq. subst rel'.
      apply elem_of_map_to_list in He. congruence.
    + apply list_elem_of_omap. exists (Files.child src rel, c). split.
      * now apply elem_of_map_to_list.
      * apply target_Some. now exists rel.
Qed.

Lemma written_None_off_dst (fs : filesystem) (q : string) :
  Files.relative_to dst q = None -> written fs !! q = None.
Proof.
  intros Hq. destruct (written fs !! q) as [c|] eqn:H; [|reflexivity].
  apply written_Some in H as (rel & -> & _).
  rewrite relative_to_child in Hq. discriminate.
Qed.

(** A header of the tree is at the destination after the copy. *)
Lemma copy_header (fs : filesystem) (rel c : string) :
  Files.glob pattern rel = true ->
  fs !! Files.child src rel = Some c ->
  Files.copy pattern src dst fs !! Files.child dst rel = Some c.
Proof.
  intros Hg Hfs. unfold Files.copy. apply lookup_union_Some_raw. left.
  apply written_Some. now exists rel.
Qed.

(** The copy leaves every path outside the destination as it was. *)
Lemma copy_off_dst (fs : filesystem) (q : string) :
  Files.relative_to dst q = None ->
  Files.copy pattern src dst fs !! q = fs !! q.
Proof.
  intros Hq. unfold Files.copy.
  apply lookup_union_r. now apply written_None_off_dst.
Qed.

Lemma copy_src_unchanged (fs : filesystem) (rel : string) :
  Files.apart src dst ->
  Files.copy pattern src dst fs !! Files.child src rel
  = fs !! Files.child src rel.
Proof.
  intros Hap. apply copy_off_dst.
  destruct (Files.relative_to dst (Files.child src rel)) as [r'|] eqn:H;
    [|reflexivity].
  apply relative_to_Some in H. now apply Hap in H.
Qed.

Lemma written_copy (fs : filesystem) :
  Files.apart src dst ->
  written (Files.copy pattern src dst fs) = written fs.
Proof.
  intros Hap. apply map_eq. intros q. apply option_eq. intros c.
  rewrite !written_Some.
  split; intros (rel & -> & Hg & H); exists rel; split_and!; try done.
  - now rewrite copy_src_unchanged in H.
  - now rewrite copy_src_unchanged.
Qed.

(** Copying a second time changes nothing. *)
Lemma copy_idemp (fs : filesystem) :
  Files.apart src dst ->
  Files.copy pattern src dst (Files.copy pattern src dst fs)
  = Files.copy pattern src dst fs.
Proof.
  intros Hap.
  change (written (Files.copy pattern src dst fs)
            ∪ Files.copy pattern src dst fs
          = Files.copy pattern src dst fs).
  rewrite written_copy by done. unfold Files.copy. fold (written fs).
  now rewrite (assoc_L (∪)), (idemp_L (∪)).
Qed.

(** What the copy writes lies below the destination. *)
Lemma copy_changes_below_dst (fs : filesystem) (q : string) :
  Files.copy pattern src dst fs !! q <> fs !! q ->
  exists rel, q = Files.child dst rel /\ Files.glob pattern rel = true.
Proof.
  intros Hne.
  destruct (Files.relative_to dst q) as [rel|] eqn:Hq.
  - apply relative_to_Some in Hq. subst q. exists rel. split; [done|].
    destruct (Files.glob pattern rel) eqn:Hg; [done|]. exfalso. apply Hne.
    unfold Files.copy. apply lookup_union_r.
    destruct (written fs !! Files.child dst rel) as [c|] eqn:H; [|done].
    apply written_Some in H as (rel' & Hq & Hg' & _).
    apply child_inj in Hq. congruence.
  - exfalso. apply Hne. now apply copy_off_dst.
Qed.

End CopyFacts.

(** ** [os.path.join] and [os.path.normpath] *)

Lemma ends_with_sep_cons (c : ascii) (p : string) :
  p <> "" -> Posix.ends_with_sep (String c p) = Posix.ends_with_sep p.
Proof. destruct p; [congruence | reflexivity]. Qed.

Lemma append_nonempty (a b : string) : b <> "" -> a ++ b <> "".
Proof. destruct a; [trivial | discriminate]. Qed.

Lemma ends_with_sep_app (a b : string) :
  b <> "" -> Posix.ends_with_sep (a ++ b) = Posix.ends_with_sep b.
Proof.
  intros Hb. induction a as [|c a IH]; [reflexivity|].
  change (String c a ++ b) with (String c (a ++ b)).
  rewrite ends_with_sep_cons by now apply append_nonempty.
  exact IH.
Qed.

Lemma ends_with_sep_split (p : string) :
  Posix.ends_with_sep p = true -> exists a, p = a ++ "/".
Proof.
  induction p as [|c p IH]; [discriminate|].
  destruct p as [|d p].
  - cbn. destruct (Ascii.eqb_spec c Posix.sep) as [->|]; [|discriminate].
    intros _. now exists "".
  - rewrite ends_with_sep_cons by discriminate.
    intros H. destruct (IH H) as [a Ha]. exists (String c a).
    change (String c a ++ "/") with (String c (a ++ "/")). now rewrite <- Ha.
Qed.

(** Joining a relative name to a directory that is named and does not end
    in a slash. *)
Lemma join1_plain (p b : string) :
  p <> "" -> Posix.ends_with_sep p = false ->
  Posix.starts_with_sep b = false ->
  Posix.join1 p b = p ++ String Posix.sep b.
Proof.
  intros Hp He Hb. unfold Posix.join1. rewrite Hb, He.
  destruct p; [congruence | reflexivity].
Qed.

Lemma join1_include (pf : string) :
  exists a, Posix.join1 pf "include" = a ++ "include"
            /\ (Posix.starts_with_sep pf = true ->
                Posix.starts_with_sep (a ++ "include") = true).
Proof.
  unfold Posix.join1.
  change (Posix.starts_with_sep "include") with false. cbv iota.
  destruct pf as [|c pf]; [now exists ""|].
  destruct (Posix.ends_with_sep (String c pf)).
  - now exists (String c pf).
  - exists (String c pf ++ "/"). split; [|trivial].
    change (String Posix.sep "include") with ("/" ++ "include").
    now rewrite append_assoc.
Qed.

(** The header destination is the include directory of the package folder
    followed by [fossil/media]. *)
Lemma join_include_fossil_media (pf : string) :
  Posix.join pf ["include"; "fossil"; "media"]
  = Files.child (Posix.join pf ["include"]) "fossil/media".
Proof.
  unfold Posix.join, Files.child. cbn [fold_left].
  destruct (join1_include pf) as (a & -> & _).
  assert (Hne : forall t : string, a ++ String "i" t <> "")
    by (intros t; now apply append_nonempty).
  rewrite (join1_plain (a ++ "include") "fossil"); try reflexivity.
  - rewrite join1_plain; try reflexivity.
    + now rewrite !append_assoc.
    + rewrite append_assoc. apply Hne.
    + rewrite append_assoc. now rewrite ends_with_sep_app.
  - apply Hne.
  - now rewrite ends_with_sep_app.
Qed.

Lemma join_absolute (pf : string) :
  Posix.starts_with_sep pf = true ->
  Posix.starts_with_sep (Posix.join pf ["include"; "fossil"; "media"]) = true.
Proof.
  intros Habs. rewrite join_include_fossil_media.
  unfold Posix.join, Files.child. cbn [fold_left].
  destruct (join1_include pf) as (a & -> & Ha). specialize (Ha Habs).
  destruct a as [|c a]; [discriminate|]. exact Ha.
Qed.

(** An absolute package folder keeps the header destination apart from the
    relative source directory of the headers. *)
Lemma package_dirs_apart (pf : string) :
  Posix.starts_with_sep pf = true ->
  Files.apart "code/logic/fossil/media"
              (Posix.join pf ["include"; "fossil"; "media"]).
Proof.
  intros Habs r r' H. apply join_absolute in Habs.
  destruct (Posix.join pf ["include"; "fossil"; "media"]) as [|c d];
    [discriminate|].
  unfold Files.child in H. cbn in H. injection H as Hc _. subst c.
  discriminate.
Qed.

Lemma split_nonempty (c : ascii) (s : string) : Posix.split c s <> [].
Proof.
  destruct s as [|a s]; [discriminate|]. cbn [Posix.split].
  destruct (Ascii.eqb a c); [discriminate|].
  destruct (Posix.split c s); discriminate.
Qed.

Lemma split_app (c : ascii) (a t : string) :
  Posix.split c (a ++ String c t) = (Posix.split c a ++ Posix.split c t)%list.
Proof.
  induction a as [|x a IH].
  - change ("" ++ String c t) with (String c t).
    cbn [Posix.split]. now rewrite Ascii.eqb_refl.
  - change (String x a ++ String c t) with (String x (a ++ String c t)).
    cbn [Posix.split]. rewrite IH.
    destruct (Ascii.eqb x c); [reflexivity|].
    pose proof (split_nonempty c a) as Hne.
    destruct (Posix.split c a) as [|w ws]; [congruence | reflexivity].
Qed.

Lemma initial_slashes_dot (a : string) :
  Posix.initial_slashes (a ++ "/builddir")
  = Posix.initial_slashes (a ++ "/./builddir").
Proof.
  destruct a as [|c1 [|c2 [|c3 a]]]; cbn; try reflexivity;
    repeat (match goal with
            | |- context [Ascii.eqb ?x Posix.sep] =>
                destruct (Ascii.eqb x Posix.sep)
            end; try reflexivity).
Qed.

Lemma normpath_nonempty (p : string) :
  p <> "" ->
  Posix.normpath p
  = Posix.or_dot
      (Posix.repeat_sep (Posix.initial_slashes p)
       ++ String.concat "/"
            (fold_left (Posix.norm_step (Posix.initial_slashes p))
                       (Posix.split Posix.sep p) [])).
Proof. destruct p; [congruence | reflexivity]. Qed.

(** A [.] component does not change the normalised path. *)
Lemma normpath_dot (a : string) :
  Posix.normpath (a ++ "/builddir") = Posix.normpath (a ++ "/./builddir").
Proof.
  rewrite !normpath_nonempty by now apply append_nonempty.
  rewrite <- initial_slashes_dot.
  change "/builddir" with (String Posix.sep "builddir").
  change "/./builddir" with (String Posix.sep "./builddir").
  rewrite !split_app, !fold_left_app. reflexivity.
Qed.

(** Resolved against any directory [base], the relative path [builddir] is
    the directory [builddir] of the relative path [.]. *)
Lemma builddir_below_dot (base : string) :
  Posix.normpath (Posix.join base ["builddir"])
  = Posix.normpath (Posix.join (Posix.join base ["."]) ["builddir"]).
Proof.
  unfold Posix.join. cbn [fold_left]. unfold Posix.join1 at 1 3.
  change (Posix.starts_with_sep "builddir") with false.
  change (Posix.starts_with_sep ".") with false. cbv iota.
  destruct base as [|c base]; [reflexivity|].
  destruct (Posix.ends_with_sep (String c base)) eqn:He.
  - destruct (ends_with_sep_split _ He) as [a Ha]. rewrite Ha.
    rewrite join1_plain; try reflexivity.
    + rewrite !append_assoc. apply normpath_dot.
    + now apply append_nonempty.
    + now rewrite ends_with_sep_app.
  - rewrite join1_plain; try reflexivity.
    + change (String Posix.sep ".") with ("/" ++ ".").
      change (String Posix.sep "builddir") with ("/" ++ "builddir").
      rewrite !append_assoc. apply normpath_dot.
    + now apply append_nonempty.
    + now rewrite ends_with_sep_app.
Qed.

(** *** The normalised build root, literally *)

Lemma initial_slashes_stem (a : string) (c c' : ascii) (t t' : string) :
  Ascii.eqb c Posix.sep = false -> Ascii.eqb c' Posix.sep = false ->
  Posix.initial_slashes (a ++ String Posix.sep (String c t))
  = Posix.initial_slashes (a ++ String Posix.sep (String c' t')).
Proof.
  intros Hc Hc'.
  destruct a as [|c1 [|c2 [|c3 a]]];
    cbv [String.append Posix.initial_slashes];
    rewrite ?Ascii.eqb_refl, ?Hc, ?Hc'; try reflexivity;
    repeat (match goal with
            | |- context [Ascii.eqb ?x Posix.sep] =>
                destruct (Ascii.eqb x Posix.sep)
            end; rewrite ?Ascii.eqb_refl, ?Hc, ?Hc'; try reflexivity).
Qed.

Lemma initial_slashes_absolute (p : string) :
  Posix.starts_with_sep p = true ->
  Posix.initial_slashes p = 1 \/ Posix.initial_slashes p = 2.
Proof.
  destruct p as [|c1 p]; [discriminate|]. cbn.
  destruct (Ascii.eqb c1 Posix.sep); [|discriminate]. intros _.
  destruct p as [|c2 p]; [now left|].
  destruct (Ascii.eqb c2 Posix.sep); [|now left].
  destruct p as [|c3 p]; [now right|].
  destruct (Ascii.eqb c3 Posix.sep); auto.
Qed.

Lemma split_no_sep (p : string) :
  Forall (fun w => Posix.no_sep w = true) (Posix.split Posix.sep p).
Proof.
  induction p as [|c p IH]; [now repeat constructor|].
  cbn [Posix.split]. destruct (Ascii.eqb c Posix.sep) eqn:Hc.
  - now constructor.
  - destruct (Posix.split Posix.sep p) as [|w ws].
    + repeat constructor. cbn [Posix.no_sep]. now rewrite Hc.
    + inversion IH as [|? ? Hw Hws]; subst. constructor; [|exact Hws].
      cbn [Posix.no_sep]. now rewrite Hc, Hw.
Qed.

Lemma Forall_removelast {A : Type} (P : A -> Prop) (l : list A) :
  Forall P l -> Forall P (removelast l).
Proof.
  induction 1 as [|x l Hx Hl IH]; [constructor|].
  cbn [removelast]. destruct l; [constructor | now constructor].
Qed.

Lemma norm_step_components (slashes : nat) (n : list string) (comp : string) :
  Forall Posix.component n -> Posix.no_sep comp = true ->
  Forall Posix.component (Posix.norm_step slashes n comp).
Proof.
  intros Hn Hc. unfold Posix.norm_step.
  destruct (String.eqb_spec comp "") as [->|Hne]; [exact Hn|].
  cbn [orb]. destruct (String.eqb comp "."); [exact Hn|].
  match goal with |- context [if ?b then _ else _] => destruct b end.
  - apply Forall_app. split; [exact Hn|]. now repeat constructor.
  - now apply Forall_removelast.
Qed.

Lemma fold_norm_components (slashes : nat) (comps n : list string) :
  Forall (fun w => Posix.no_sep w = true) comps ->
  Forall Posix.component n ->
  Forall Posix.component (fold_left (Posix.norm_step slashes) comps n).
Proof.
  intros Hc. revert n.
  induction Hc as [|c comps Hc Hcs IH]; intros n Hn; [exact Hn|].
  cbn [fold_left]. apply IH. now apply norm_step_components.
Qed.

Lemma component_ends (w : string) :
  Posix.component w -> Posix.ends_with_sep w = false.
Proof.
  intros [Hw _]. induction w as [|c w IH]; [reflexivity|].
  cbn [Posix.no_sep] in Hw. apply andb_true_iff in Hw as [Hc Hw].
  apply negb_true_iff in Hc.
  destruct w as [|d w]; [cbn; now rewrite Hc|].
  rewrite ends_with_sep_cons by discriminate. now apply IH.
Qed.

Lemma concat_cons2 (x y : string) (r : list string) :
  String.concat "/" (x :: y :: r) = x ++ "/" ++ String.concat "/" (y :: r).
Proof. reflexivity. Qed.

Lemma concat_components (n : list string) :
  Forall Posix.component n -> n <> [] ->
  String.concat "/" n <> ""
  /\ Posix.ends_with_sep (String.concat "/" n) = false.
Proof.
  induction 1 as [|x n Hx Hn IH]; [congruence|]. intros _.
  destruct n as [|y r].
  - cbn [String.concat]. split; [apply Hx | now apply component_ends].
  - rewrite concat_cons2. destruct IH as [IH1 IH2]; [discriminate|].
    split.
    + apply append_nonempty. discriminate.
    + rewrite ends_with_sep_app by discriminate.
      change ("/" ++ String.concat "/" (y :: r))
        with (String "/" (String.concat "/" (y :: r))).
      now rewrite ends_with_sep_cons.
Qed.

Lemma concat_snoc (n : list string) (c : string) :
  n <> [] ->
  String.concat "/" (n ++ [c]) = String.concat "/" n ++ "/" ++ c.
Proof.
  induction n as [|x n IH]; [congruence|]. intros _.
  destruct n as [|y r]; [reflexivity|].
  change ((x :: y :: r) ++ [c])%list with (x :: y :: (r ++ [c]))%list.
  rewrite !concat_cons2.
  change (y :: (r ++ [c]))%list with ((y :: r) ++ [c])%list.
  rewrite IH by discriminate. now rewrite !append_assoc.
Qed.

Lemma or_dot_nonempty (p : string) : p <> "" -> Posix.or_dot p = p.
Proof. destruct p; [congruence | reflexivity]. Qed.

Lemma repeat_sep_absolute (k : nat) :
  k = 1 \/ k = 2 ->
  Posix.repeat_sep k <> "" /\ Posix.ends_with_sep (Posix.repeat_sep k) = true.
Proof. intros [-> | ->]; now split. Qed.

(** Below an absolute directory, the normalised [builddir] is, as a string,
    the normalised [.] joined with [builddir]. *)
Lemma normpath_builddir_absolute (a : string) :
  Posix.starts_with_sep (a ++ "/") = true ->
  Posix.normpath (a ++ "/builddir")
  = Posix.join1 (Posix.normpath (a ++ "/.")) "builddir".
Proof.
  intros Habs.
  rewrite !normpath_nonempty by now apply append_nonempty.
  change "/builddir" with (String Posix.sep (String "b" "uilddir")).
  change "/." with (String Posix.sep (String "." "")).
  rewrite (initial_slashes_stem a "b" "." "uilddir" "") by reflexivity.
  assert (Hk : Posix.initial_slashes (a ++ String Posix.sep ".") = 1
               \/ Posix.initial_slashes (a ++ String Posix.sep ".") = 2).
  { apply initial_slashes_absolute.
    destruct a as [|c a]; [reflexivity | exact Habs]. }
  set (k := Posix.initial_slashes (a ++ String Posix.sep ".")) in *.
  rewrite !split_app, !fold_left_app.
  set (n := fold_left (Posix.norm_step k) (Posix.split Posix.sep a) []).
  assert (Hn : Forall Posix.component n)
    by (apply fold_norm_components; [apply split_no_sep | constructor]).
  change (fold_left (Posix.norm_step k) (Posix.split Posix.sep "builddir") n)
    with (Posix.norm_step k n "builddir").
  change (fold_left (Posix.norm_step k) (Posix.split Posix.sep ".") n)
    with n.
  change (Posix.norm_step k n "builddir") with (n ++ ["builddir"])%list.
  destruct (repeat_sep_absolute k Hk) as [Hr1 Hr2].
  rewrite !or_dot_nonempty
    by (destruct (Posix.repeat_sep k); [congruence | discriminate]).
  unfold Posix.join1. change (Posix.starts_with_sep "builddir") with false.
  cbv iota.
  destruct n as [|x n'].
  - change (String.concat "/" []) with "".
    change (String.concat "/" ([] ++ ["builddir"])) with "builddir".
    destruct Hk as [-> | ->]; reflexivity.
  - destruct (concat_components (x :: n') Hn) as [Hc1 Hc2]; [discriminate|].
    rewrite concat_snoc by discriminate.
    rewrite (ends_with_sep_app (Posix.repeat_sep k)) by exact Hc1.
    rewrite Hc2.
    destruct (Posix.repeat_sep k ++ String.concat "/" (x :: n')) eqn:Heq.
    + destruct (Posix.repeat_sep k); [congruence | discriminate].
    + rewrite <- Heq. now rewrite !append_assoc.
Qed.

(** For an absolute directory [base]: the build root is, literally, the
    normalised source root joined with [builddir]. *)
Lemma builddir_below_source_root (base : string) :
  Posix.starts_with_sep base = true ->
  Posix.normpath (Posix.join base ["builddir"])
  = Posix.join (Posix.normpath (Posix.join base ["."])) ["builddir"].
Proof.
  intros Habs.
  unfold Posix.join. cbn [fold_left]. unfold Posix.join1 at 1 3.
  change (Posix.starts_with_sep "builddir") with false.
  change (Posix.starts_with_sep ".") with false. cbv iota.
  destruct base as [|c base]; [discriminate|].
  destruct (Posix.ends_with_sep (String c base)) eqn:He.
  - destruct (ends_with_sep_split _ He) as [a Ha]. rewrite Ha in *.
    rewrite !append_assoc. now apply normpath_builddir_absolute.
  - change (String Posix.sep ".") with ("/" ++ ".").
    change (String Posix.sep "builddir") with ("/" ++ "builddir").
    now apply normpath_builddir_absolute.
Qed.

(** ** Command lines *)

Lemma split_word (w : string) :
  Git.no_blank w = true -> Posix.split " " w = [w].
Proof.
  induction w as [|c w IH]; [reflexivity|].
  cbn [Git.no_blank Posix.split]. intros H.
  apply andb_true_iff in H as [Hc Hw].
  apply negb_true_iff in Hc. rewrite Hc, (IH Hw). reflexivity.
Qed.

Lemma words_cons (w t : string) :
  Git.no_blank w = true -> w <> "" ->
  Git.words (w ++ String " " t) = w :: Git.words t.
Proof.
  intros Hw Hne. unfold Git.words.
  rewrite split_app, (split_word w Hw). cbn [app List.filter].
  apply String.eqb_neq in Hne. now rewrite Hne.
Qed.

Lemma no_blank_v (v : string) :
  Git.no_blank ("v" ++ v) = Git.no_blank v.
Proof. reflexivity. Qed.

(** The words of both clone commands up to the tag. *)
Lemma words_clone (v rest : string) :
  Git.no_blank v = true ->
  Git.words ("git clone --branch v" ++ v ++ String " " rest)
  = "git" :: "clone" :: "--branch" :: ("v" ++ v) :: Git.words rest.
Proof.
  intros Hv.
  change ("git clone --branch v" ++ v ++ String " " rest)
    with ("git" ++ String " " ("clone" ++ String " " ("--branch" ++
            String " " ("v" ++ (v ++ String " " rest))))).
  rewrite <- (append_assoc "v" v).
  rewrite !words_cons; try reflexivity; try discriminate.
  now rewrite no_blank_v.
Qed.

Lemma branch_of_clone (v rest : string) :
  Git.no_blank v = true ->
  Git.branch_of ("git clone --branch v" ++ v ++ String " " rest)
  = Some ("v" ++ v).
Proof. intros Hv. unfold Git.branch_of. now rewrite words_clone. Qed.

Lemma depth_of_clone (v rest : string) :
  Git.no_blank v = true ->
  Git.depth_of ("git clone --branch v" ++ v ++ String " " rest)
  = Git.flag_value "--depth" (Git.words rest).
Proof. intros Hv. unfold Git.depth_of. now rewrite words_clone. Qed.

(** ** Running the methods *)

Section Runs.
Context {W E : Type} {host : Host W E}.

Lemma issued_app (m : M (W:=W) (E:=E) unit) (s : state W) (cs : list call) :
  calls (m s).2 = (calls s ++ cs)%list -> issued m s = cs.
Proof. intros H. unfold issued. rewrite H. apply drop_app_length. Qed.

Lemma run_invoke (c : call) (s : state W) :
  invoke c s
  = (match (exec c (world s)).2 with Some e => Raise e | None => Ok tt end,
     mkState (self s) (exec c (world s)).1 (calls s ++ [c])).
Proof. unfold invoke. now destruct (exec c (world s)). Qed.

Lemma run_source_1 (s : state W) :
  calls (source_1 s).2
  = (calls s ++ [Run ("git clone --branch v" ++ version (self s)
                        ++ " --depth 1 " ++ url (self s))])%list
  /\ self (source_1 s).2 = self s.
Proof.
  unfold source_1, bind, get_self. rewrite run_invoke. now cbn.
Qed.

Lemma run_source_2 (s : state W) :
  calls (source_2 s).2
  = (calls s ++ [Run ("git clone --branch v" ++ version (self s)
                        ++ " " ++ url (self s))])%list
  /\ self (source_2 s).2 = self s.
Proof.
  unfold source_2, bind, get_self. rewrite run_invoke. now cbn.
Qed.

Lemma getattr_layout : getattr "layout" = Some layout.
Proof. reflexivity. Qed.
Lemma getattr_generate : getattr "generate" = Some generate.
Proof. reflexivity. Qed.
Lemma getattr_build : getattr "build" = Some build.
Proof. reflexivity. Qed.
Lemma getattr_source : getattr "source" = Some source_2.
Proof. reflexivity. Qed.
Lemma getattr_package : getattr "package" = Some package.
Proof. reflexivity. Qed.
Lemma getattr_package_info : getattr "package_info" = Some package_info.
Proof. reflexivity. Qed.

(** The two clone commands differ whatever the version and the URL. *)
Lemma clone_commands_differ (v u : string) :
  "git clone --branch v" ++ v ++ " --depth 1 " ++ u
  <> "git clone --branch v" ++ v ++ " " ++ u.
Proof.
  intros H.
  apply (String.app_inj "git clone --branch v") in H.
  apply (String.app_inj v) in H.
  apply (String.app_inj " ") in H.
  apply (f_equal String.length) in H.
  cbn [String.length] in H. lia.
Qed.

End Runs.

(** ** The clone performed by [source()] *)

Section SourceClaims.
Context {W E : Type} {host : Host W E}.

(** C1. The clone of [source()] is claimed to be shallow (history depth 1)
    at the tag of the version. On the recipe as loaded, the definition that
    the name [source] resolves to runs
    [git clone --branch v0.1.1 https://github.com/fossillogic/fossil-media]:
    the tag is [v0.1.1] but no [--depth] is given, so the clone is a full
    one; the first definition, which is shadowed, passes [--depth 1]. *)
Theorem source_effective_is_full_clone
    (fld : Folders.t) (pkg : string) (ci : CppInfo.t) (w : W) :
  let s := mkState (FossilMediaConan fld pkg ci) w [] in
  exists (m : M (W:=W) (E:=E) unit) (cmd cmd1 : string),
    getattr "source" = Some m
    /\ issued m s = [Run cmd]
    /\ cmd = "git clone --branch v0.1.1 https://github.com/fossillogic/fossil-media"
    /\ Git.branch_of cmd = Some "v0.1.1"
    /\ Git.depth_of cmd = None
    /\ issued source_1 s = [Run cmd1]
    /\ Git.depth_of cmd1 = Some "1".
Proof.
  intros s. eexists source_2, _, _. split; [reflexivity|].
  split; [apply issued_app, run_source_2|].
  split; [reflexivity|]. split; [reflexivity|]. split; [reflexivity|].
  split; [apply issued_app, run_source_1 | reflexivity].
Qed.

(** C2. The class body holds two definitions of [source] with the same
    parameter list; the name resolves to the second; the second runs the
    clone command without [--depth 1], the first with it; and the two are
    not equivalent: started in any state they issue different commands. *)
Theorem source_second_definition_overrides :
  List.filter (fun d : string * method => String.eqb d.1 "source")
              (class_body (W:=W) (E:=E))
  = [ ("source", Def ["self"] source_1); ("source", Def ["self"] source_2) ]
  /\ getattr (W:=W) (E:=E) "source" = Some source_2
  /\ (forall s : state W,
        issued source_2 s
        = [Run ("git clone --branch v" ++ version (self s) ++ " "
                  ++ url (self s))])
  /\ (forall s : state W,
        issued source_1 s
        = [Run ("git clone --branch v" ++ version (self s) ++ " --depth 1 "
                  ++ url (self s))])
  /\ (forall s : state W, issued source_1 s <> issued source_2 s)
  /\ (forall s : state W, source_1 s <> source_2 s).
Proof.
  assert (H2 : forall s : state W,
             issued source_2 s
             = [Run ("git clone --branch v" ++ version (self s) ++ " "
                       ++ url (self s))])
    by (intros s; apply issued_app, run_source_2).
  assert (H1 : forall s : state W,
             issued source_1 s
             = [Run ("git clone --branch v" ++ version (self s)
                       ++ " --depth 1 " ++ url (self s))])
    by (intros s; apply issued_app, run_source_1).
  assert (Hd : forall s : state W, issued source_1 s <> issued source_2 s).
  { intros s. rewrite H1, H2. intros H.
    apply (clone_commands_differ (version (self s)) (url (self s))).
    congruence. }
  split; [reflexivity|]. split; [reflexivity|].
  split; [exact H2|]. split; [exact H1|]. split; [exact Hd|].
  intros s H. apply (Hd s). unfold issued. now rewrite H.
Qed.

(** C3. Both definitions of [source()] issue one command, of the form
    [git clone --branch v<version> ...]; for every version that is a single
    word the branch or tag the command names is the string [v] followed by
    the version, and on the recipe as loaded, with version [0.1.1], it is
    [v0.1.1]. *)
Theorem source_targets_v_version_tag :
  (forall (s : state W) (m : M (W:=W) (E:=E) unit),
      m = source_1 \/ m = source_2 ->
      exists cmd rest : string,
        issued m s = [Run cmd]
        /\ cmd = "git clone --branch " ++ ("v" ++ version (self s))
                   ++ String " " rest
        /\ (Git.no_blank (version (self s)) = true ->
            Git.branch_of cmd = Some ("v" ++ version (self s))))
  /\ (forall fld pkg ci (w : W) (m : M (W:=W) (E:=E) unit),
        m = source_1 \/ m = source_2 ->
        exists cmd : string,
          issued m (mkState (FossilMediaConan fld pkg ci) w []) = [Run cmd]
          /\ Git.branch_of cmd = Some "v0.1.1").
Proof.
  assert (G : forall (s : state W) (m : M (W:=W) (E:=E) unit),
      m = source_1 \/ m = source_2 ->
      exists cmd rest : string,
        issued m s = [Run cmd]
        /\ cmd = "git clone --branch " ++ ("v" ++ version (self s))
                   ++ String " " rest
        /\ (Git.no_blank (version (self s)) = true ->
            Git.branch_of cmd = Some ("v" ++ version (self s)))).
  { intros s m [-> | ->].
    - exists ("git clone --branch v" ++ version (self s) ++ " --depth 1 "
                ++ url (self s)), ("--depth 1 " ++ url (self s)).
      split; [apply issued_app, run_source_1|]. split; [reflexivity|].
      intros Hv. now apply (branch_of_clone _ ("--depth 1 " ++ url (self s))).
    - exists ("git clone --branch v" ++ version (self s) ++ " "
                ++ url (self s)), (url (self s)).
      split; [apply issued_app, run_source_2|]. split; [reflexivity|].
      intros Hv. now apply (branch_of_clone _ (url (self s))). }
  split; [exact G|].
  intros fld pkg ci w m Hm.
  destruct (G (mkState (FossilMediaConan fld pkg ci) w []) m Hm)
    as (cmd & rest & Hi & _ & Hb).
  exists cmd. split; [exact Hi|]. now apply Hb.
Qed.

End SourceClaims.

Lemma source_targets_v_version_tag_witness :
  exists cmd : string,
    issued (source_2 (host:=counting_host (fun _ => false)))
      (mkState (FossilMediaConan (Folders.mk "" "") "/pkg" (CppInfo.mk [] []))
               0 [])
    = [Run cmd]
    /\ Git.branch_of cmd = Some "v0.1.1".
Proof.
  destruct (proj1 (source_targets_v_version_tag
                     (host:=counting_host (fun _ => false)))
              (mkState (FossilMediaConan (Folders.mk "" "") "/pkg"
                          (CppInfo.mk [] [])) 0 [])
              source_2 (or_intror eq_refl))
    as (cmd & rest & Hi & _ & Hb).
  exists cmd. split; [exact Hi|]. apply Hb. reflexivity.
Defined.

(** ** [build()] *)

Ltac run_call :=
  rewrite run_invoke; cbn [fst snd self world calls];
  match goal with
  | |- context [exec ?c ?w] =>
      let w' := fresh "w" in
      let e := fresh "e" in
      let X := fresh "X" in
      destruct (exec c w) as [w' [e|]] eqn:X
  end;
  cbn [fst snd self world calls];
  rewrite <- ?app_assoc, ?drop_app_length; cbn [app].

Section BuildClaims.
Context {W E : Type} {host : Host W E}.

(** C7. [build()] calls the Meson helper's [configure] and then its [build],
    each once, after constructing the helper: a run that returns issued
    exactly these calls in this order, and every run issued a prefix of
    them, so that no call is made twice. A run that raises stops at the call
    that raised: that call is the last one issued, the calls before it
    returned, and the exception of the run is the one that call raised. The
    recipe object is left as it was. *)
Theorem build_configure_then_build_once (s : state W) :
  issued build s `prefix_of` [NewMeson; MesonConfigure; MesonBuild]
  /\ self (build s).2 = self s
  /\ ((build s).1 = Ok tt ->
      issued build s = [NewMeson; MesonConfigure; MesonBuild]
      /\ count_occ call_eq_dec (issued build s) MesonConfigure = 1
      /\ count_occ call_eq_dec (issued build s) MesonBuild = 1
      /\ exec_all (issued build s) (world s) = (world (build s).2, None))
  /\ (forall e : E, (build s).1 = Raise e ->
      exists (before : list call) (c : call) (w : W),
        issued build s = (before ++ [c])%list
        /\ exec_all before (world s) = (w, None)
        /\ exec c w = (world (build s).2, Some e)).
Proof.
  unfold issued, build, bind.
  run_call.
  { split; [by exists [MesonConfigure; MesonBuild]|]. split; [done|].
    split; [done|]. intros e' [= <-]. by exists [], NewMeson, (world s). }
  run_call.
  { split; [by exists [MesonBuild]|]. split; [done|].
    split; [done|]. intros e' [= <-].
    exists [NewMeson], MesonConfigure, w. cbn [exec_all]. by rewrite X. }
  run_call.
  { split; [by exists []|]. split; [done|].
    split; [done|]. intros e' [= <-].
    exists [NewMeson; MesonConfigure], MesonBuild, w0.
    cbn [exec_all]. by rewrite X, X0. }
  split; [by exists []|]. split; [done|]. split; [|done].
  intros _. split; [done|]. split; [done|]. split; [done|].
  cbn [exec_all]. by rewrite X, X0, X1.
Qed.

End BuildClaims.

Lemma build_configure_then_build_once_witness :
  (let s := mkState (FossilMediaConan (Folders.mk "" "") "/pkg"
                       (CppInfo.mk [] [])) 0 [] in
   issued (build (host:=counting_host (fun _ => false))) s
   = [NewMeson; MesonConfigure; MesonBuild])
  /\ (let s := mkState (FossilMediaConan (Folders.mk "" "") "/pkg"
                          (CppInfo.mk [] [])) 0 [] in
      exists (before : list call) (c : call) (w : nat),
        issued (build (host:=counting_host is_meson_build)) s
        = (before ++ [c])%list
        /\ exec_all (host:=counting_host is_meson_build) before (world s)
           = (w, None)
        /\ exec (Host:=counting_host is_meson_build) c w
           = (world (build (host:=counting_host is_meson_build) s).2,
              Some "exit status 1")).
Proof.
  split.
  - intros s.
    apply (proj1 (proj2 (proj2 (build_configure_then_build_once
                                  (host:=counting_host (fun _ => false)) s)))).
    reflexivity.
  - intros s.
    apply (proj2 (proj2 (proj2 (build_configure_then_build_once
                                  (host:=counting_host is_meson_build) s)))).
    reflexivity.
Defined.

(** ** The package descriptor *)

Section DescriptorFacts.
Context {W E : Type} {host : Host W E}.

Lemma keeps_bind {A B : Type} (m : M (W:=W) (E:=E) A)
    (k : A -> M (W:=W) (E:=E) B) :
  keeps_descriptor m -> (forall a, keeps_descriptor (k a)) ->
  keeps_descriptor (bind m k).
Proof.
  intros Hm Hk s. unfold bind. specialize (Hm s).
  destruct (m s) as [[a|e] s']; cbn [snd] in *; [|exact Hm].
  now rewrite Hk.
Qed.

Lemma keeps_invoke (c : call) : keeps_descriptor (invoke c).
Proof. intros s. now rewrite run_invoke. Qed.

Lemma keeps_get_self : keeps_descriptor (W:=W) (E:=E) get_self.
Proof. now intros s. Qed.

Lemma keeps_update_self (f : ConanFile -> ConanFile) :
  (forall o, descriptor (f o) = descriptor o) ->
  keeps_descriptor (W:=W) (E:=E) (update_self f).
Proof. intros Hf s. apply Hf. Qed.

Ltac keeps :=
  repeat (apply keeps_bind; [|intros ?]);
  first [ apply keeps_invoke | apply keeps_get_self
        | apply keeps_update_self; intros o; reflexivity ].

Lemma keeps_layout : keeps_descriptor (W:=W) (E:=E) layout.
Proof. unfold layout. keeps. Qed.
Lemma keeps_generate : keeps_descriptor (W:=W) (E:=E) generate.
Proof. unfold generate. keeps. Qed.
Lemma keeps_build : keeps_descriptor (W:=W) (E:=E) build.
Proof. unfold build. keeps. Qed.
Lemma keeps_source_1 : keeps_descriptor (W:=W) (E:=E) source_1.
Proof. unfold source_1. keeps. Qed.
Lemma keeps_source_2 : keeps_descriptor (W:=W) (E:=E) source_2.
Proof. unfold source_2. keeps. Qed.
Lemma keeps_package : keeps_descriptor (W:=W) (E:=E) package.
Proof. unfold package. keeps. Qed.
Lemma keeps_package_info : keeps_descriptor (W:=W) (E:=E) package_info.
Proof. unfold package_info. keeps. Qed.

(** Every hook of the lifecycle resolves to a method of the class. *)
Lemma lifecycle_resolves (attr : string) (m : M (W:=W) (E:=E) unit) :
  In attr lifecycle -> getattr attr = Some m ->
  m = layout \/ m = generate \/ m = build \/ m = source_2
  \/ m = package \/ m = package_info.
Proof.
  unfold lifecycle. cbn [In].
  intros [<- | [<- | [<- | [<- | [<- | [<- | []]]]]]] [= <-]; auto 10.
Qed.

Lemma hook_keeps_descriptor (attr : string) (m : M (W:=W) (E:=E) unit) :
  In attr lifecycle -> getattr attr = Some m -> keeps_descriptor m.
Proof.
  intros Hin Hget.
  destruct (lifecycle_resolves attr m Hin Hget)
    as [-> | [-> | [-> | [-> | [-> | ->]]]]];
    auto using keeps_layout, keeps_generate, keeps_build, keeps_source_2,
               keeps_package, keeps_package_info.
Qed.

Lemma reachable_descriptor (s : state W) :
  reachable s ->
  descriptor (self s)
  = descriptor (FossilMediaConan (folders (self s)) (package_folder (self s))
                                 (cpp_info (self s))).
Proof.
  induction 1 as [fld pkg ci w | s attr m Hs IH Hin Hget]; [reflexivity|].
  rewrite (hook_keeps_descriptor attr m Hin Hget s). exact IH.
Qed.

End DescriptorFacts.

(** ** [layout()], [package_info()], the options and the descriptor *)

Section RecipeClaims.
Context {W E : Type} {host : Host W E}.

(** C5. Started in any state, [layout()] returns, sets the source root to
    [.] and the build root to [builddir], and does nothing else. Resolved
    against any directory [base] the recipe is invoked in, the build root is
    the path [<source root>/builddir]: the two normalise to the same path,
    and for an absolute [base] the normalised build root is, character for
    character, the normalised source root joined with [builddir]. *)
Theorem layout_sets_source_and_build_roots (s : state W) (base : string) :
  let f := folders (self (layout (W:=W) (E:=E) s).2) in
  (layout (W:=W) (E:=E) s).1 = Ok tt
  /\ Folders.source f = "."
  /\ Folders.build f = "builddir"
  /\ Posix.normpath (Posix.join base [Folders.build f])
     = Posix.normpath
         (Posix.join (Posix.join base [Folders.source f]) ["builddir"])
  /\ (Posix.starts_with_sep base = true ->
      Posix.normpath (Posix.join base [Folders.build f])
      = Posix.join (Posix.normpath (Posix.join base [Folders.source f]))
                   ["builddir"])
  /\ issued (layout (W:=W) (E:=E)) s = []
  /\ world (layout (W:=W) (E:=E) s).2 = world s.
Proof.
  cbn. split; [reflexivity|]. split; [reflexivity|]. split; [reflexivity|].
  split; [apply builddir_below_dot|].
  split; [apply builddir_below_source_root|]. split; [|reflexivity].
  unfold issued. cbn. apply drop_all.
Qed.

(** C6. On a loaded recipe, in any state the lifecycle reaches,
    [package_info()] returns and leaves a list of library names with exactly
    one entry, the name of the package descriptor, [fossil_media], as it
    is. *)
Theorem package_info_libs_is_descriptor_name (s : state W) :
  reachable s ->
  let libs := CppInfo.libs (cpp_info (self (package_info (W:=W) (E:=E) s).2)) in
  (package_info (W:=W) (E:=E) s).1 = Ok tt
  /\ libs = [name (self s)]
  /\ length libs = 1
  /\ name (self s) = "fossil_media"
  /\ d_name (descriptor (self (package_info (W:=W) (E:=E) s).2))
     = name (self s).
Proof.
  intros Hs libs.
  pose proof (f_equal d_name (reachable_descriptor s Hs)) as Hn.
  cbn in Hn. subst libs. cbn. rewrite Hn. repeat split.
Qed.

(** C8. The recipe declares the option [shared] and no other; its values
    are the two booleans and its default is [False]. *)
Theorem options_shared_only (fld : Folders.t) (pkg : string) (ci : CppInfo.t) :
  let r := FossilMediaConan fld pkg ci in
  options r !! "shared" = Some [true; false]
  /\ (forall b : bool, b ∈ [true; false])
  /\ default_options r !! "shared" = Some false
  /\ dom (options r) = {[ "shared" ]}
  /\ dom (default_options r) = {[ "shared" ]}.
Proof.
  cbn. split; [apply lookup_singleton_eq|].
  split; [intros []; set_solver|].
  split; [apply lookup_singleton_eq|].
  split; apply dom_singleton_L.
Qed.

(** C9. The descriptor fields are those of the class attributes when the
    recipe is loaded; none of the methods of the class body, the shadowed
    first [source] included, changes any of them, whether it returns or
    raises; so in every state the lifecycle reaches they are the loaded
    ones. *)
Theorem descriptor_never_mutated :
  (forall fld pkg ci,
      descriptor (FossilMediaConan fld pkg ci)
      = mkDescriptor "fossil_media" "0.1.1" "MPL-2.0"
          "Fossil Logic <michaelbrockus@gmail.com>"
          "https://github.com/fossillogic/fossil-media"
          "Fossil Media is a lightweight, portable data parsing and processing library written in pure C with zero external dependencies."
          ["c"; "xml"; "csv"; "json"; "cpp"; "meson"; "conan-recipe";
           "mesonbuild"; "ninja-build"])
  /\ (forall (d : string * method (W:=W) (E:=E)) (s : state W),
        In d class_body ->
        descriptor (self (body d.2 s).2) = descriptor (self s))
  /\ (forall (attr : string) (m : M (W:=W) (E:=E) unit) (s : state W),
        In attr lifecycle -> getattr attr = Some m ->
        descriptor (self (m s).2) = descriptor (self s))
  /\ (forall s : state W,
        reachable s ->
        descriptor (self s)
        = descriptor (FossilMediaConan (folders (self s))
                        (package_folder (self s)) (cpp_info (self s)))).
Proof.
  split; [reflexivity|]. split; [|split].
  - intros d s. unfold class_body. cbn [In].
    intros [<- | [<- | [<- | [<- | [<- | [<- | [<- | []]]]]]]]; cbn [snd body].
    + apply keeps_layout.
    + apply keeps_generate.
    + apply keeps_build.
    + apply keeps_source_1.
    + apply keeps_package.
    + apply keeps_package_info.
    + apply keeps_source_2.
  - intros attr m s Hin Hget. now apply (hook_keeps_descriptor attr m).
  - apply reachable_descriptor.
Qed.

End RecipeClaims.

Lemma layout_sets_source_and_build_roots_witness :
  Posix.normpath
    (Posix.join "/work/fossil-media"
       [Folders.build
          (folders (self (layout (W:=nat) (E:=string)
                            (mkState (FossilMediaConan (Folders.mk "" "")
                                        "/pkg" (CppInfo.mk [] [])) 0 [])).2))])
  = "/work/fossil-media/builddir".
Proof.
  apply (proj1 (proj2 (proj2 (proj2 (proj2
           (layout_sets_source_and_build_roots (W:=nat) (E:=string)
              (mkState (FossilMediaConan (Folders.mk "" "") "/pkg"
                          (CppInfo.mk [] [])) 0 [])
              "/work/fossil-media")))))).
  reflexivity.
Defined.

Lemma package_info_libs_is_descriptor_name_witness :
  CppInfo.libs
    (cpp_info
       (self (package_info (W:=nat) (E:=string)
                (mkState (FossilMediaConan (Folders.mk "" "") "/pkg"
                            (CppInfo.mk [] [])) 0 [])).2))
  = ["fossil_media"].
Proof.
  exact (proj1 (proj2 (package_info_libs_is_descriptor_name
                         (host:=counting_host (fun _ => false))
                         (mkState (FossilMediaConan (Folders.mk "" "") "/pkg"
                                     (CppInfo.mk [] [])) 0 [])
                         (reach_load _ _ _ _)))).
Defined.

Lemma descriptor_never_mutated_witness :
  descriptor
    (self (build (host:=counting_host is_meson_build)
             (mkState (FossilMediaConan (Folders.mk "" "") "/pkg"
                         (CppInfo.mk [] [])) 0 [])).2)
  = descriptor (FossilMediaConan (Folders.mk "" "") "/pkg" (CppInfo.mk [] [])).
Proof.
  apply (proj1 (proj2 (proj2 (descriptor_never_mutated
                                (host:=counting_host is_meson_build))))
           "build").
  - right. right. left. reflexivity.
  - reflexivity.
Defined.

(** ** [package()] *)

Section PackageFacts.
Context {W E : Type} {host : Host W E}.

(** The header destination [package()] passes to [copy]. *)
Local Abbreviation dst_of s :=
  (Posix.join (package_folder (self s)) ["include"; "fossil"; "media"]).

Lemma run_package (s : state W) :
  package s
  = match exec NewMeson (world s) with
    | (w1, Some e) => (Raise e, mkState (self s) w1 (calls s ++ [NewMeson]))
    | (w1, None) =>
        match exec MesonInstall w1 with
        | (w2, Some e) =>
            (Raise e,
             mkState (self s) w2 (calls s ++ [NewMeson; MesonInstall]))
        | (w2, None) =>
            (match (exec (Copy "*.h" "code/logic/fossil/media" (dst_of s)) w2).2
             with Some e => Raise e | None => Ok tt end,
             mkState (self s)
               (exec (Copy "*.h" "code/logic/fossil/media" (dst_of s)) w2).1
               (calls s ++ [NewMeson; MesonInstall;
                            Copy "*.h" "code/logic/fossil/media" (dst_of s)]))
        end
    end.
Proof.
  unfold package, bind, get_self, dst_of.
  rewrite run_invoke.
  destruct (exec NewMeson (world s)) as [w1 [e|]]; cbn [fst snd]; [done|].
  rewrite run_invoke; cbn [self world calls].
  destruct (exec MesonInstall w1) as [w2 [e|]]; cbn [fst snd].
  { by rewrite <- app_assoc. }
  rewrite run_invoke; cbn [self world calls].
  by rewrite <- !app_assoc.
Qed.

Lemma package_issued_prefix (s : state W) :
  issued package s
  `prefix_of` [NewMeson; MesonInstall;
               Copy "*.h" "code/logic/fossil/media" (dst_of s)].
Proof.
  unfold issued. rewrite run_package.
  destruct (exec NewMeson (world s)) as [w1 [e|]]; cbn [snd calls].
  { rewrite drop_app_length. by eexists. }
  destruct (exec MesonInstall w1) as [w2 [e|]]; cbn [snd calls];
    rewrite drop_app_length; by eexists.
Qed.

Lemma package_issued_ok (s : state W) :
  (package s).1 = Ok tt ->
  issued package s
  = [NewMeson; MesonInstall; Copy "*.h" "code/logic/fossil/media" (dst_of s)]
  /\ exists mid,
       exec_all [NewMeson; MesonInstall] (world s) = (mid, None)
       /\ exec (Copy "*.h" "code/logic/fossil/media" (dst_of s)) mid
          = (world (package s).2, None).
Proof.
  unfold issued. rewrite run_package. cbn [exec_all].
  destruct (exec NewMeson (world s)) as [w1 [e|]]; cbn [fst]; [done|].
  destruct (exec MesonInstall w1) as [w2 [e|]]; cbn [fst snd calls world];
    [done|].
  rewrite drop_app_length. intros H. split; [done|]. exists w2. split; [done|].
  destruct (exec (Copy "*.h" "code/logic/fossil/media" (dst_of s)) w2)
    as [w3 [e|]]; cbn in *; [done | done].
Qed.

End PackageFacts.

Section IncludeClaims.
Context {W E : Type} {host : Host W E}.

(** C10. [package_info()] declares the include directories [["include"]]
    and nothing else. Every [copy] that [package()] issues, and it issues
    one whenever it returns, has as destination the directory
    [fossil/media] of [<package_folder>/include]; and every file that such a
    copy writes lies below [<package_folder>/include], at [fossil/media]
    followed by a name that matches [*.h]. *)
Theorem headers_below_declared_include_dir (s : state W) :
  let incdirs :=
    CppInfo.includedirs (cpp_info (self (package_info (W:=W) (E:=E) s).2)) in
  let incdir := Posix.join (package_folder (self s)) incdirs in
  incdirs = ["include"]
  /\ (forall pattern src dst : string,
        In (Copy pattern src dst) (issued package s) ->
        dst = Files.child incdir "fossil/media")
  /\ ((package s).1 = Ok tt ->
      In (Copy "*.h" "code/logic/fossil/media"
               (Files.child incdir "fossil/media"))
         (issued package s))
  /\ (forall (pattern src dst : string) (fs : filesystem) (q : string),
        In (Copy pattern src dst) (issued package s) ->
        Files.copy pattern src dst fs !! q <> fs !! q ->
        exists rel : string,
          Files.glob "*.h" rel = true
          /\ q = Files.child incdir (Files.child "fossil/media" rel)).
Proof.
  intros incdirs incdir.
  assert (Hinc : incdirs = ["include"]) by reflexivity.
  assert (Hdst : Posix.join (package_folder (self s))
                   ["include"; "fossil"; "media"]
                 = Files.child incdir "fossil/media").
  { subst incdir. rewrite Hinc. apply join_include_fossil_media. }
  assert (Hcopy : forall pattern src dst : string,
             In (Copy pattern src dst) (issued package s) ->
             pattern = "*.h" /\ src = "code/logic/fossil/media"
             /\ dst = Files.child incdir "fossil/media").
  { intros pattern src dst Hin.
    destruct (package_issued_prefix s) as [k Hk].
    assert (Hin' : In (Copy pattern src dst) (issued package s ++ k))
      by (apply in_or_app; now left).
    rewrite <- Hk in Hin'. cbn [In] in Hin'.
    destruct Hin' as [H | [H | [H | []]]]; try discriminate.
    injection H as <- <- <-. split; [done|]. split; [done|]. exact Hdst. }
  split; [exact Hinc|]. split; [|split].
  - intros pattern src dst Hin. now apply (Hcopy pattern src dst).
  - intros Hok. destruct (package_issued_ok s Hok) as [-> _].
    rewrite Hdst. cbn [In]. auto.
  - intros pattern src dst fs q Hin Hne.
    destruct (Hcopy pattern src dst Hin) as (-> & -> & ->).
    apply copy_changes_below_dst in Hne as (rel & -> & Hg).
    exists rel. split; [exact Hg|]. apply child_child.
Qed.

End IncludeClaims.

Lemma headers_below_declared_include_dir_witness :
  In (Copy "*.h" "code/logic/fossil/media" "/pkg/include/fossil/media")
     (issued (package (host:=files_host install_only)) sample_state)
  /\ exists rel : string,
       Files.glob "*.h" rel = true
       /\ "/pkg/include/fossil/media/xml.h"
          = Files.child "/pkg/include" (Files.child "fossil/media" rel).
Proof.
  pose proof (headers_below_declared_include_dir
                (host:=files_host install_only) sample_state)
    as (_ & _ & Hissued & Hwritten).
  split.
  - apply Hissued. reflexivity.
  - apply (Hwritten "*.h" "code/logic/fossil/media"
             "/pkg/include/fossil/media" sample_tree).
    + right. right. left. reflexivity.
    + vm_compute. discriminate.
Defined.

Section PackageClaims.
Context {E : Type} (tools : call -> filesystem -> filesystem * option E).

Local Abbreviation src := "code/logic/fossil/media".
Local Abbreviation dst_of s :=
  (Posix.join (package_folder (self s)) ["include"; "fossil"; "media"]).
Local Abbreviation package_on_files := (package (host:=files_host tools)).

(** C4. On a tree of files, with [copy] as modelled, [package()] issues the
    construction of the Meson helper, its [install], and then the copy of
    [*.h] from [code/logic/fossil/media] to
    [<package_folder>/include/fossil/media], in this order. After a run
    that returns, every file below the source directory whose name matches
    [*.h] is at the destination under the same name and with the same
    content: this holds of the headers present when the copy starts and,
    for an absolute package folder, of the headers present at the end.
    Running [package()] again on the result, where the Meson steps find
    nothing left to do, returns and leaves the same tree, hence the same
    set of files at the destination. *)
Theorem package_installs_then_copies_headers (s : state filesystem) :
  let s1 := (package_on_files s).2 in
  issued package_on_files s
  `prefix_of` [NewMeson; MesonInstall; Copy "*.h" src (dst_of s)]
  /\ ((package_on_files s).1 = Ok tt ->
      issued package_on_files s
      = [NewMeson; MesonInstall; Copy "*.h" src (dst_of s)]
      /\ (exists mid : filesystem,
            exec_all (host:=files_host tools) [NewMeson; MesonInstall]
                     (world s) = (mid, None)
            /\ world s1 = Files.copy "*.h" src (dst_of s) mid
            /\ forall rel c : string,
                 Files.glob "*.h" rel = true ->
                 mid !! Files.child src rel = Some c ->
                 world s1 !! Files.child (dst_of s) rel = Some c)
      /\ (Posix.starts_with_sep (package_folder (self s)) = true ->
          (forall rel c : string,
              Files.glob "*.h" rel = true ->
              world s1 !! Files.child src rel = Some c ->
              world s1 !! Files.child (dst_of s) rel = Some c)
          /\ (tools NewMeson (world s1) = (world s1, None) ->
              tools MesonInstall (world s1) = (world s1, None) ->
              (package_on_files s1).1 = Ok tt
              /\ world (package_on_files s1).2 = world s1
              /\ Files.files_under (dst_of s) (world (package_on_files s1).2)
                 = Files.files_under (dst_of s) (world s1)))).
Proof.
  intros s1. split; [apply (package_issued_prefix (host:=files_host tools))|].
  intros Hok.
  destruct (package_issued_ok (host:=files_host tools) s Hok)
    as (Hissued & mid & Hmid & Hcopy).
  change (exec (Copy "*.h" src (dst_of s)) mid)
    with (Files.copy "*.h" src (dst_of s) mid, @None E) in Hcopy.
  injection Hcopy as Hw. fold s1 in Hw.
  split; [exact Hissued|]. split.
  { exists mid. split; [exact Hmid|]. split; [done|].
    intros rel c Hg Hc. rewrite <- Hw. now apply copy_header. }
  intros Habs. pose proof (package_dirs_apart _ Habs) as Hap. split.
  { intros rel c Hg Hc. rewrite <- Hw in Hc |- *.
    rewrite copy_src_unchanged in Hc by done. now apply copy_header. }
  intros Hnew Hinstall.
  assert (Hself : self s1 = self s).
  { subst s1. rewrite (run_package (host:=files_host tools)).
    destruct (exec NewMeson (world s)) as [w1 [e|]]; [done|].
    now destruct (exec MesonInstall w1) as [w2 [e|]]. }
  assert (Hrun : (package_on_files s1).1 = Ok tt
                 /\ world (package_on_files s1).2 = world s1).
  { rewrite (run_package (host:=files_host tools) s1).
    change (exec NewMeson (world s1)) with (tools NewMeson (world s1)).
    rewrite Hnew.
    change (exec MesonInstall (world s1)) with (tools MesonInstall (world s1)).
    rewrite Hinstall. cbn [fst snd world exec files_host].
    split; [reflexivity|].
    rewrite Hself, <- Hw. now apply copy_idemp. }
  destruct Hrun as [Hr Hw2]. split; [exact Hr|]. split; [exact Hw2|].
  now rewrite Hw2.
Qed.

End PackageClaims.

Lemma package_installs_then_copies_headers_witness :
  let s1 := (package (host:=files_host install_only) sample_state).2 in
  world s1 !! "/pkg/include/fossil/media/xml.h" = Some "xml"
  /\ world (package (host:=files_host install_only) s1).2 = world s1.
Proof.
  intros s1.
  pose proof (package_installs_then_copies_headers install_only sample_state)
    as (_ & H).
  destruct (H eq_refl) as (_ & _ & Habs).
  destruct (Habs eq_refl) as (Hheaders & Hagain).
  split.
  - apply (Hheaders "xml.h" "xml"); reflexivity.
  - apply Hagain; vm_compute; reflexivity.
Defined.

(** * Further properties of the recipe *)

(** ** What the methods write to the recipe object *)

Section Frame.
Context {W E : Type} {host : Host W E}.
Context {X : Type} (f : ConanFile -> X).

Local Abbreviation keeps m :=
  (forall s : state W, f (self (m s).2) = f (self s)).

Lemma frame_bind {A B : Type} (m : M (W:=W) (E:=E) A)
    (k : A -> M (W:=W) (E:=E) B) :
  keeps m -> (forall a, keeps (k a)) -> keeps (bind m k).
Proof.
  intros Hm Hk s. unfold bind. specialize (Hm s).
  destruct (m s) as [[a|e] s']; cbn [snd] in *; [|exact Hm].
  now rewrite Hk.
Qed.

Lemma frame_invoke (c : call) : keeps (invoke c).
Proof. intros s. now rewrite run_invoke. Qed.

Lemma frame_get_self : keeps (get_self (W:=W) (E:=E)).
Proof. now intros s. Qed.

Ltac frame :=
  repeat (apply frame_bind; [|intros ?]);
  first [ apply frame_invoke | apply frame_get_self ].

Lemma frame_generate : keeps generate.
Proof. unfold generate. frame. Qed.
Lemma frame_build : keeps build.
Proof. unfold build. frame. Qed.
Lemma frame_source_1 : keeps source_1.
Proof. unfold source_1. frame. Qed.
Lemma frame_source_2 : keeps source_2.
Proof. unfold source_2. frame. Qed.
Lemma frame_package : keeps package.
Proof. unfold package. frame. Qed.

Lemma frame_class_body (d : string * method (W:=W) (E:=E)) (s : state W) :
  (forall g o, f (set_folders g o) = f o) ->
  (forall c o, f (set_cpp_info c o) = f o) ->
  In d class_body ->
  f (self (body d.2 s).2) = f (self s).
Proof.
  intros Hfold Hcpp. unfold class_body. cbn [In].
  intros [<- | [<- | [<- | [<- | [<- | [<- | [<- | []]]]]]]]; cbn [snd body].
  - cbn. now rewrite !Hfold.
  - apply frame_generate.
  - apply frame_build.
  - apply frame_source_1.
  - apply frame_package.
  - cbn. now rewrite !Hcpp.
  - apply frame_source_2.
Qed.

(** X5. An observation of the recipe object that does not look at
    [folders] or [cpp_info] has the same value before and after every
    method of the class body, whether the method returns or raises. *)
Theorem methods_write_only_folders_and_cpp_info
    (d : string * method (W:=W) (E:=E)) (s : state W) :
  (forall g o, f (set_folders g o) = f o) ->
  (forall c o, f (set_cpp_info c o) = f o) ->
  In d class_body ->
  f (self (body d.2 s).2) = f (self s).
Proof. apply frame_class_body. Qed.

End Frame.

Lemma methods_write_only_folders_and_cpp_info_witness :
  package_folder
    (self (layout (W:=nat) (E:=string)
             (mkState (FossilMediaConan (Folders.mk "" "") "/pkg"
                         (CppInfo.mk [] [])) 0 [])).2)
  = "/pkg".
Proof.
  apply (methods_write_only_folders_and_cpp_info
           (host:=counting_host (fun _ => false)) package_folder
           ("layout", Def ["self"] layout)
           (mkState (FossilMediaConan (Folders.mk "" "") "/pkg"
                       (CppInfo.mk [] [])) 0 [])).
  - reflexivity.
  - reflexivity.
  - left. reflexivity.
Defined.

(** ** Invariants of the lifecycle *)

Section LifecycleInvariants.
Context {W E : Type} {host : Host W E}.

Lemma hook_in_class_body (attr : string) (m : M (W:=W) (E:=E) unit) :
  In attr lifecycle -> getattr attr = Some m ->
  exists d : string * method (W:=W) (E:=E), In d class_body /\ body d.2 = m.
Proof.
  intros Hin Hget.
  destruct (lifecycle_resolves attr m Hin Hget)
    as [-> | [-> | [-> | [-> | [-> | ->]]]]].
  - exists ("layout", Def ["self"] layout). split; [|reflexivity].
    unfold class_body; cbn [In]; auto 10.
  - exists ("generate", Def ["self"] generate). split; [|reflexivity].
    unfold class_body; cbn [In]; auto 10.
  - exists ("build", Def ["self"] build). split; [|reflexivity].
    unfold class_body; cbn [In]; auto 10.
  - exists ("source", Def ["self"] source_2). split; [|reflexivity].
    unfold class_body; cbn [In]; auto 10.
  - exists ("package", Def ["self"] package). split; [|reflexivity].
    unfold class_body; cbn [In]; auto 10.
  - exists ("package_info", Def ["self"] package_info). split; [|reflexivity].
    unfold class_body; cbn [In]; auto 10.
Qed.

Lemma hook_frame {X : Type} (f : ConanFile -> X) (attr : string)
    (m : M (W:=W) (E:=E) unit) (s : state W) :
  (forall g o, f (set_folders g o) = f o) ->
  (forall c o, f (set_cpp_info c o) = f o) ->
  In attr lifecycle -> getattr attr = Some m ->
  f (self (m s).2) = f (self s).
Proof.
  intros Hfold Hcpp Hin Hget.
  destruct (hook_in_class_body attr m Hin Hget) as (d & Hd & <-).
  now apply frame_class_body.
Qed.

Lemma hook_calls (attr : string) (m : M (W:=W) (E:=E) unit) (s : state W) :
  In attr lifecycle -> getattr attr = Some m ->
  exists cs : list call,
    calls (m s).2 = (calls s ++ cs)%list
    /\ forall c, In c cs -> recipe_call (self s) c.
Proof.
  intros Hin Hget.
  destruct (lifecycle_resolves attr m Hin Hget)
    as [-> | [-> | [-> | [-> | [-> | ->]]]]].
  - exists []. split; [cbn; now rewrite app_nil_r | intros c []].
  - unfold generate, bind.
    run_call; [|(rewrite run_invoke; cbn [fst snd self world calls];
        rewrite <- ?app_assoc; cbn [app])];
      eexists; (split; [reflexivity|]);
      intros c Hc; cbn [In] in Hc; decompose [or] Hc; subst; now cbn.
  - unfold build, bind.
    run_call; [|run_call; [|(rewrite run_invoke; cbn [fst snd self world calls];
        rewrite <- ?app_assoc; cbn [app])]];
      eexists; (split; [reflexivity|]);
      intros c Hc; cbn [In] in Hc; decompose [or] Hc; subst; now cbn.
  - destruct (run_source_2 s) as [Hc _]. eexists. split; [exact Hc|].
    intros c [<- | []]. reflexivity.
  - rewrite run_package.
    destruct (exec NewMeson (world s)) as [w1 [e|]]; cbn [snd calls].
    { eexists. split; [reflexivity|]. intros c [<- | []]. exact I. }
    destruct (exec MesonInstall w1) as [w2 [e|]]; cbn [snd calls].
    { eexists. split; [reflexivity|]. intros c [<- | [<- | []]]; exact I. }
    eexists. split; [reflexivity|].
    intros c [<- | [<- | [<- | []]]]; cbn; auto.
  - exists []. split; [cbn; now rewrite app_nil_r | intros c []].
Qed.

Lemma reachable_attributes (s : state W) :
  reachable s ->
  self s = FossilMediaConan (folders (self s)) (package_folder (self s))
                            (cpp_info (self s)).
Proof.
  induction 1 as [fld pkg ci w | s attr m Hs IH Hin Hget]; [reflexivity|].
  pose proof (hook_frame
                (fun o => set_folders (Folders.mk "" "")
                            (set_cpp_info (CppInfo.mk [] []) o))
                attr m s (fun _ _ => eq_refl) (fun _ _ => eq_refl) Hin Hget)
    as Hf.
  rewrite IH in Hf.
  destruct (self (m s).2). cbn in Hf. injection Hf as -> -> -> -> -> -> ->.
  intros. subst. reflexivity.
Qed.

(** X6. In every state the lifecycle reaches, all class attributes of the
    recipe object are the ones written in the class body: only [folders],
    [package_folder] and [cpp_info], which Conan provides, can differ from
    one reachable state to another. *)
Theorem reachable_class_attributes (s : state W) :
  reachable s ->
  self s = FossilMediaConan (folders (self s)) (package_folder (self s))
                            (cpp_info (self s)).
Proof. apply reachable_attributes. Qed.

(** X7. Once [layout()] has set the folders, and once [package_info()] has
    set the consumer information, no later hook changes them, whether it
    returns or raises. *)
Theorem layout_and_package_info_results_are_stable
    (attr : string) (m : M (W:=W) (E:=E) unit) (s : state W) :
  In attr lifecycle -> getattr attr = Some m ->
  (folders (self s) = Folders.mk "." "builddir" ->
   folders (self (m s).2) = Folders.mk "." "builddir")
  /\ (cpp_info (self s) = CppInfo.mk ["fossil_media"] ["include"] ->
      cpp_info (self (m s).2) = CppInfo.mk ["fossil_media"] ["include"]).
Proof.
  intros Hin Hget.
  destruct (lifecycle_resolves attr m Hin Hget)
    as [-> | [-> | [-> | [-> | [-> | ->]]]]].
  - split; [reflexivity | now cbn].
  - now rewrite (frame_generate (fun o => o)).
  - now rewrite (frame_build (fun o => o)).
  - now rewrite (frame_source_2 (fun o => o)).
  - now rewrite (frame_package (fun o => o)).
  - split; [now cbn | reflexivity].
Qed.

(** X8. In every state the lifecycle reaches, every call in the log is one
    the recipe makes for its own package folder: the only command ever run
    is the clone of tag [v0.1.1] without [--depth], and every copy is the
    one of [*.h] from [code/logic/fossil/media] into
    [<package_folder>/include/fossil/media]. *)
Theorem reachable_calls (s : state W) :
  reachable s ->
  forall c : call, In c (calls s) ->
    recipe_call (self s) c
    /\ match c with
       | Run cmd =>
           cmd = "git clone --branch v0.1.1 https://github.com/fossillogic/fossil-media"
           /\ Git.depth_of cmd = None
       | _ => True
       end.
Proof.
  intros Hs.
  assert (G : forall c : call, In c (calls s) -> recipe_call (self s) c).
  { induction Hs as [fld pkg ci w | s attr m Hs IH Hin Hget]; [intros c []|].
    intros c Hc.
    destruct (hook_calls attr m s Hin Hget) as (cs & Hcs & Hall).
    rewrite Hcs in Hc. apply in_app_or in Hc.
    assert (Hrc : recipe_call (self s) c) by (destruct Hc; auto).
    pose proof (hook_frame version attr m s (fun _ _ => eq_refl)
                  (fun _ _ => eq_refl) Hin Hget) as Hv.
    pose proof (hook_frame url attr m s (fun _ _ => eq_refl)
                  (fun _ _ => eq_refl) Hin Hget) as Hu.
    pose proof (hook_frame package_folder attr m s (fun _ _ => eq_refl)
                  (fun _ _ => eq_refl) Hin Hget) as Hp.
    destruct c; cbn in *; try exact I; now rewrite ?Hv, ?Hu, ?Hp. }
  intros c Hc. split; [now apply G|].
  destruct c as [| | | | | |cmd|]; try exact I.
  pose proof (G _ Hc) as Hcmd. cbn in Hcmd.
  rewrite (reachable_attributes s Hs) in Hcmd. cbn in Hcmd. subst cmd.
  split; reflexivity.
Qed.

End LifecycleInvariants.

(** ** Failure and effect of the methods that call out *)

Section CallingOut.
Context {W E : Type} {host : Host W E}.

Local Abbreviation outcome r :=
  (match r with Some e => Raise e | None => Ok tt end).

(** X1. [generate()] is the host running the construction of the toolchain
    and then its [generate]: it returns exactly when both return and
    otherwise raises the exception of the first that raised; when the
    constructor raises, [generate] of the toolchain is not called; the
    recipe object is not changed. *)
Theorem generate_runs_toolchain_calls (s : state W) :
  let r := exec_all [NewMesonToolchain; ToolchainGenerate] (world s) in
  (generate s).1 = outcome r.2
  /\ world (generate s).2 = r.1
  /\ self (generate s).2 = self s
  /\ issued generate s
     = match (exec NewMesonToolchain (world s)).2 with
       | Some _ => [NewMesonToolchain]
       | None => [NewMesonToolchain; ToolchainGenerate]
       end.
Proof.
  unfold issued, generate, bind. cbn [exec_all].
  run_call; [done|].
  rewrite run_invoke; cbn [fst snd self world calls].
  rewrite <- app_assoc, drop_app_length.
  now destruct (exec ToolchainGenerate w) as [w' [e|]].
Qed.

(** X2. [package()] is the host running the construction of the Meson
    helper, its [install] and the copy of the headers: it returns exactly
    when all three return and otherwise raises the exception of the first
    that raised; the copy is issued exactly when the two Meson calls
    returned, so a failed install leaves the headers uncopied; the recipe
    object is not changed. *)
Theorem package_copies_only_after_install (s : state W) :
  let cp := Copy "*.h" "code/logic/fossil/media"
              (Posix.join (package_folder (self s))
                 ["include"; "fossil"; "media"]) in
  let r := exec_all [NewMeson; MesonInstall; cp] (world s) in
  (package s).1 = outcome r.2
  /\ world (package s).2 = r.1
  /\ self (package s).2 = self s
  /\ (In cp (issued package s)
      <-> (exec_all [NewMeson; MesonInstall] (world s)).2 = None).
Proof.
  intros cp r. subst r. unfold issued. rewrite run_package. cbn [exec_all].
  destruct (exec NewMeson (world s)) as [w1 [e|]]; cbn [fst snd self world calls].
  { rewrite drop_app_length. repeat split; try done.
    intros [H | []]. discriminate. }
  destruct (exec MesonInstall w1) as [w2 [e|]];
    cbn [fst snd self world calls]; rewrite drop_app_length.
  { repeat split; try done. intros [H | [H | []]]; discriminate. }
  fold cp. destruct (exec cp w2) as [w3 [e|]]; cbn [fst snd];
    repeat split; try done; intros _; cbn [In]; auto.
Qed.

(** X3. Either definition of [source()] issues its one command whatever
    the outcome: it returns exactly when the command returns, raises the
    exception the command raised, and does not change the recipe object. *)
Theorem source_runs_one_command (m : M (W:=W) (E:=E) unit) (s : state W) :
  m = source_1 \/ m = source_2 ->
  exists cmd : string,
    issued m s = [Run cmd]
    /\ (m s).1 = outcome (exec (Run cmd) (world s)).2
    /\ world (m s).2 = (exec (Run cmd) (world s)).1
    /\ self (m s).2 = self s.
Proof.
  intros [-> | ->]; eexists; unfold issued.
  - unfold source_1, bind, get_self. rewrite run_invoke.
    cbn [fst snd self world calls]. rewrite drop_app_length. done.
  - unfold source_2, bind, get_self. rewrite run_invoke.
    cbn [fst snd self world calls]. rewrite drop_app_length. done.
Qed.

Lemma words_single (u : string) :
  Git.no_blank u = true ->
  Git.words u = if String.eqb u "" then [] else [u].
Proof.
  intros Hu. unfold Git.words. rewrite (split_word u Hu). cbn [List.filter].
  now destruct (String.eqb u "").
Qed.

(** X4. For every version and URL that are single words, the commands of
    the two definitions of [source()] have the same words except for
    [--depth 1] after the tag: they name the same branch, the first has
    depth [1] and the second has none. *)
Theorem clone_commands_differ_by_depth_flag (s : state W) :
  Git.no_blank (version (self s)) = true ->
  Git.no_blank (url (self s)) = true ->
  exists cmd1 cmd2 : string,
    issued source_1 s = [Run cmd1]
    /\ issued source_2 s = [Run cmd2]
    /\ Git.words cmd1
       = (take 4 (Git.words cmd2) ++ ["--depth"; "1"]
            ++ drop 4 (Git.words cmd2))%list
    /\ Git.branch_of cmd1 = Git.branch_of cmd2
    /\ Git.depth_of cmd1 = Some "1"
    /\ Git.depth_of cmd2 = None.
Proof.
  intros Hv Hu. do 2 eexists.
  split; [apply issued_app, run_source_1|].
  split; [apply issued_app, run_source_2|].
  change (" --depth 1 " ++ url (self s))
    with (String " " ("--depth" ++ String " " ("1" ++ String " " (url (self s))))).
  change (" " ++ url (self s)) with (String " " (url (self s))).
  unfold Git.branch_of, Git.depth_of.
  rewrite !words_clone by exact Hv.
  rewrite !words_cons by (reflexivity || discriminate).
  rewrite (words_single _ Hu).
  split; [reflexivity|]. split; [reflexivity|]. split; [reflexivity|].
  cbn. destruct (String.eqb (url (self s)) ""); [reflexivity|].
  cbn. now destruct (String.eqb (url (self s)) "--depth").
Qed.

(** X9. [layout()] and [package_info()] never raise, call nothing, and can
    be run in either order and any number of times with the same result. *)
Theorem layout_package_info_commute (s : state W) :
  bind (layout (W:=W) (E:=E)) (fun _ => package_info) s
  = bind (package_info (W:=W) (E:=E)) (fun _ => layout) s
  /\ bind (layout (W:=W) (E:=E)) (fun _ => layout) s = layout s
  /\ bind (package_info (W:=W) (E:=E)) (fun _ => package_info) s
     = package_info s
  /\ (layout (W:=W) (E:=E) s).1 = Ok tt
  /\ (package_info (W:=W) (E:=E) s).1 = Ok tt
  /\ calls (bind (layout (W:=W) (E:=E)) (fun _ => package_info) s).2
     = calls s
  /\ world (bind (layout (W:=W) (E:=E)) (fun _ => package_info) s).2
     = world s.
Proof. repeat split. Qed.

End CallingOut.

(** ** The class namespace and the header destination *)

Section Namespace.
Context {W E : Type} {host : Host W E}.


End Namespace.

(** X11. The header destination for every package folder: the folder
    followed by [include/fossil/media], with a slash put between them only
    when the folder is named and does not end in one; it is never empty and
    never ends in a slash. *)
Theorem header_destination_shape (pf : string) :
  let dst := Posix.join pf ["include"; "fossil"; "media"] in
  dst = match pf with
        | EmptyString => "include/fossil/media"
        | _ => if Posix.ends_with_sep pf then pf ++ "include/fossil/media"
               else pf ++ "/include/fossil/media"
        end
  /\ dst <> ""
  /\ Posix.ends_with_sep dst = false.
Proof.
  intros dst.
  assert (Hshape : dst = match pf with
        | EmptyString => "include/fossil/media"
        | _ => if Posix.ends_with_sep pf then pf ++ "include/fossil/media"
               else pf ++ "/include/fossil/media"
        end).
  { subst dst. rewrite join_include_fossil_media.
    unfold Posix.join, Files.child. cbn [fold_left]. unfold Posix.join1.
    change (Posix.starts_with_sep "include") with false. cbv iota.
    destruct pf as [|c pf]; [reflexivity|].
    destruct (Posix.ends_with_sep (String c pf)).
    - now rewrite append_assoc.
    - change (String Posix.sep "include") with ("/" ++ "include").
      now rewrite !append_assoc. }
  split; [exact Hshape|]. rewrite Hshape.
  destruct pf as [|c pf]; [now split|].
  destruct (Posix.ends_with_sep (String c pf)).
  - split; [discriminate|]. now rewrite ends_with_sep_app.
  - split; [discriminate|]. now rewrite ends_with_sep_app.
Qed.

(** ** Instances *)

Lemma package_copies_only_after_install_witness :
  ~ In (Copy "*.h" "code/logic/fossil/media" "/pkg/include/fossil/media")
       (issued (package (host:=counting_host fails_install)) fresh_state).
Proof.
  intros Hin.
  apply (proj2 (proj2 (proj2 (package_copies_only_after_install
                                (host:=counting_host fails_install)
                                fresh_state)))) in Hin.
  discriminate Hin.
Defined.

Lemma source_runs_one_command_witness :
  exists cmd : string,
    issued (source_2 (host:=counting_host fails_run)) fresh_state = [Run cmd]
    /\ (source_2 (host:=counting_host fails_run) fresh_state).1
       = Raise "exit status 1".
Proof.
  destruct (source_runs_one_command (host:=counting_host fails_run)
              source_2 fresh_state (or_intror eq_refl))
    as (cmd & Hi & Hr & _).
  exists cmd. split; [exact Hi | exact Hr].
Defined.

Lemma clone_commands_differ_by_depth_flag_witness :
  exists cmd1 cmd2 : string,
    issued (source_1 (host:=counting_host fails_run)) fresh_state = [Run cmd1]
    /\ issued (source_2 (host:=counting_host fails_run)) fresh_state
       = [Run cmd2]
    /\ Git.depth_of cmd1 = Some "1"
    /\ Git.depth_of cmd2 = None.
Proof.
  destruct (clone_commands_differ_by_depth_flag
              (host:=counting_host fails_run) fresh_state eq_refl eq_refl)
    as (cmd1 & cmd2 & H1 & H2 & _ & _ & Hd1 & Hd2).
  exists cmd1, cmd2. repeat split; assumption.
Defined.

Lemma reachable_class_attributes_witness :
  options (self fresh_state) = {[ "shared" := [true; false] ]}.
Proof.
  rewrite (reachable_class_attributes
             (host:=counting_host fails_run) fresh_state
             (reach_load _ _ _ _)).
  reflexivity.
Defined.

Lemma layout_and_package_info_results_are_stable_witness :
  folders
    (self (build (host:=counting_host is_meson_build)
             (layout (W:=nat) (E:=string) fresh_state).2).2)
  = Folders.mk "." "builddir".
Proof.
  apply (layout_and_package_info_results_are_stable
           (host:=counting_host is_meson_build) "build").
  - right. right. left. reflexivity.
  - reflexivity.
  - reflexivity.
Defined.

Lemma reachable_calls_witness :
  Git.depth_of
    "git clone --branch v0.1.1 https://github.com/fossillogic/fossil-media"
  = None.
Proof.
  refine (proj2 (proj2 (reachable_calls
            (host:=counting_host fails_run)
            (source_2 (host:=counting_host fails_run) fresh_state).2
            (reach_hook fresh_state "source" source_2
               (reach_load _ _ _ _) _ eq_refl)
            (Run "git clone --branch v0.1.1 https://github.com/fossillogic/fossil-media")
            _))).
  - right. right. right. left. reflexivity.
  - left. reflexivity.
Defined.
